(** * A digital wallet: the transfer engine, account seeding and history queries

    Shallow embedding of the Express/Mongoose back end
    ([backend/routes/account.js], [backend/routes/user.js], [backend/db.js]).

    - A JavaScript [Number] is an IEEE-754 binary64 value; it is modelled by
      Rocq's primitive [float], which is the same format with the same
      round-to-nearest-even arithmetic.
    - A Mongoose collection is the list of its documents in insertion order;
      [findOne] returns the first match and [updateOne] changes the first match.
    - A route handler is a computation in a small monad that threads the
      store, the open multi-document transaction, a log of the driver calls it
      makes, and lets any driver call throw.  Requests are served one after
      the other.
    - An [ObjectId] is the string that names it; a string is the sequence
      of its characters; the request body has its fields already typed
      ([to] a string, [amount] a number). *)

From Stdlib Require Import ZArith List String Ascii Bool Lia Floats QArith.
From Stdlib Require Import Sorting.Sorted Sorting.Permutation.
Import ListNotations.

Set Implicit Arguments.

(* A decimal literal denotes the nearest binary64 value, as in JavaScript. *)
Set Warnings "-inexact-float".

#[local] Open Scope string_scope.
#[local] Open Scope list_scope.
#[local] Open Scope Z_scope.

(** ** JavaScript numbers *)

Module Number.

Definition t := float.

(** [x < y], [x <= y] and [x > y] of JavaScript: false as soon as an operand
    is NaN. *)
Definition lt (x y : t) : bool := PrimFloat.ltb x y.
Definition le (x y : t) : bool := PrimFloat.leb x y.
Definition gt (x y : t) : bool := PrimFloat.ltb y x.

Definition add (x y : t) : t := PrimFloat.add x y.
Definition mul (x y : t) : t := PrimFloat.mul x y.
Definition neg (x : t) : t := PrimFloat.opp x.

Definition isNaN (x : t) : bool := negb (PrimFloat.eqb x x).

(** The rational number a finite binary64 value denotes; [None] for NaN and
    the infinities. *)
Definition exact (x : t) : option Q :=
  match Prim2SF x with
  | S754_zero _ => Some 0%Q
  | S754_finite s m e =>
      let v := (inject_Z (Zpos m) * Qpower 2 e)%Q in
      Some (if s then Qopp v else v)
  | _ => None
  end.

(** A balance is never negative when [0 <= b] holds of it. *)
Definition nonneg (x : t) : Prop := le 0%float x = true.

End Number.

Bind Scope float_scope with Number.t.

(** ** Documents and collections ([backend/db.js]) *)

Definition ObjectId := string.

Record User := mkUser {
  user_id : ObjectId;
  username : string;
  password : string;
  firstName : string;
  lastName : string
}.

(** Of an account document the routes read and write [userId] and
    [balance] only. *)
Record Account := mkAccount {
  userId : ObjectId;
  balance : Number.t
}.

Inductive Status := pending | completed | failed.

Record Transaction := mkTransaction {
  tx_id : ObjectId;
  fromUserId : ObjectId;
  toUserId : ObjectId;
  amount : Number.t;
  status : Status;
  description : string;
  createdAt : Z
}.

Record Db := mkDb {
  Users : list User;
  Accounts : list Account;
  Transactions : list Transaction
}.

Definition empty_db : Db := mkDb [] [] [].

(** [Model.findOne(filter)]: the first document that matches. *)
Definition findOne {A} (p : A -> bool) (l : list A) : option A := List.find p l.

(** [Model.updateOne(filter, update)]: the first document that matches is
    replaced, nothing happens when there is none. *)
Fixpoint updateOne {A} (p : A -> bool) (f : A -> A) (l : list A) : list A :=
  match l with
  | [] => []
  | d :: l' => if p d then f d :: l' else d :: updateOne p f l'
  end.

Definition byUserId (u : ObjectId) (a : Account) : bool := String.eqb (userId a) u.
Definition byId (u : ObjectId) (x : User) : bool := String.eqb (user_id x) u.
Definition byUsername (n : string) (x : User) : bool := String.eqb (username x) n.

(** [{ $inc: { balance: d } }] *)
Definition inc_balance (d : Number.t) (a : Account) : Account :=
  mkAccount (userId a) (Number.add (balance a) d).

(** [{ $or: [{ fromUserId: u }, { toUserId: u }] }] *)
Definition involves (u : ObjectId) (tx : Transaction) : bool :=
  String.eqb (fromUserId tx) u || String.eqb (toUserId tx) u.

(** ** The handler monad *)

(** What a request gets from outside the program: which driver calls throw
    (by their position in the request), [Math.random()], the clock used for
    [createdAt], the [_id] given to the document the request creates, and the
    library functions the routes call: zod's e-mail check, [bcrypt.hash],
    [jwt.sign], and [parseFloat(x.toFixed(2))]. *)
Record Env := mkEnv {
  faulty : nat -> bool;
  random : Number.t;
  now : Z;
  newId : ObjectId;
  isEmail : string -> bool;
  bcrypt_hash : string -> string;
  jwt_sign : ObjectId -> string;
  toFixed2 : Number.t -> Number.t
}.

Inductive Event :=
| StartSession | EndSession
| StartTransaction | AbortTransaction | CommitTransaction
| AccountFindOne (u : ObjectId)
| AccountUpdateOne (u : ObjectId) (d : Number.t)
| AccountCreate (u : ObjectId) (b : Number.t)
| UserFindOne (n : string)
| UserFindById (u : ObjectId)
| UserCreate (u : ObjectId)
| UserFindByIdAndUpdate (u : ObjectId)
| TransactionCreate (f t : ObjectId) (a : Number.t)
| TransactionFind (u : ObjectId)
| TransactionCount (u : ObjectId).

(** [store] is what the request sees, with its own uncommitted writes;
    [opened] is the store as it was when the transaction started, kept until
    commit or abort. *)
Record St := mkSt {
  store : Db;
  opened : option Db;
  calls : nat;
  trace : list Event
}.

Inductive Res (A : Type) :=
| Val (a : A)
| Throw.
Arguments Throw {A}.

Definition M (A : Type) := Env -> St -> Res A * St.

Definition ret {A} (a : A) : M A := fun _ s => (Val a, s).

Definition throw {A} : M A := fun _ s => (Throw, s).

Definition ask : M Env := fun env s => (Val env, s).

Definition bind {A B} (m : M A) (k : A -> M B) : M B :=
  fun env s =>
    match m env s with
    | (Val a, s') => k a env s'
    | (Throw, s') => (Throw, s')
    end.

Declare Scope handler_scope.
Delimit Scope handler_scope with handler.
Notation "x <- m ;; k" := (bind m (fun x => k))
  (at level 61, m at next level, right associativity) : handler_scope.
Notation "m ;; k" := (bind m (fun _ => k))
  (at level 61, right associativity) : handler_scope.
#[local] Open Scope handler_scope.

(** [try { m } catch (error) { h }] *)
Definition try_catch {A} (m h : M A) : M A :=
  fun env s =>
    match m env s with
    | (Val a, s') => (Val a, s')
    | (Throw, s') => h env s'
    end.

(** [try { m } finally { f }] *)
Definition finally {A} (m : M A) (f : M unit) : M A :=
  fun env s =>
    match m env s with
    | (r, s') =>
        match f env s' with
        | (Val _, s'') => (r, s'')
        | (Throw, s'') => (Throw, s'')
        end
    end.

(** A call into the driver: it is logged, it throws when the environment
    says so, and otherwise it reads or changes the store the request sees. *)
Definition driver {A} (ev : Event) (f : Db -> A * Db) : M A :=
  fun env s =>
    let tr := trace s ++ [ev] in
    if faulty env (calls s) then
      (Throw, mkSt (store s) (opened s) (S (calls s)) tr)
    else
      let (a, d) := f (store s) in
      (Val a, mkSt d (opened s) (S (calls s)) tr).

(** Session bookkeeping that does not reach the server; it does not throw. *)
Definition local (ev : Event) (f : St -> Db * option Db) : M unit :=
  fun _ s =>
    let (d, o) := f s in
    (Val tt, mkSt d o (calls s) (trace s ++ [ev])).

(** [mongoose.startSession()] makes a client-side session object. *)
Definition startSession : M unit :=
  local StartSession (fun s => (store s, opened s)).

Definition startTransaction : M unit :=
  local StartTransaction (fun s => (store s, Some (store s))).

(** Rolling back restores the store of [startTransaction]. *)
Definition rollback (s : St) : Db * option Db :=
  match opened s with
  | Some d => (d, None)
  | None => (store s, None)
  end.

Definition abortTransaction : M unit := local AbortTransaction rollback.

(** A session that ends with a transaction still open aborts it. *)
Definition endSession : M unit := local EndSession rollback.

(** The commit either happens as a whole or throws and changes nothing. *)
Definition commitTransaction : M unit :=
  fun env s =>
    let tr := trace s ++ [CommitTransaction] in
    if faulty env (calls s) then
      (Throw, mkSt (store s) (opened s) (S (calls s)) tr)
    else
      (Val tt, mkSt (store s) None (S (calls s)) tr).

Definition Account_findOne (u : ObjectId) : M (option Account) :=
  driver (AccountFindOne u) (fun d => (findOne (byUserId u) (Accounts d), d)).

Definition User_findById (u : ObjectId) : M (option User) :=
  driver (UserFindById u) (fun d => (findOne (byId u) (Users d), d)).

Definition User_findOne (n : string) : M (option User) :=
  driver (UserFindOne n) (fun d => (findOne (byUsername n) (Users d), d)).

Definition Account_updateOne (u : ObjectId) (d : Number.t) : M unit :=
  driver (AccountUpdateOne u d)
    (fun db => (tt, mkDb (Users db)
                         (updateOne (byUserId u) (inc_balance d) (Accounts db))
                         (Transactions db))).

Definition Transaction_create (tx : Transaction) : M Transaction :=
  driver (TransactionCreate (fromUserId tx) (toUserId tx) (amount tx))
    (fun db => (tx, mkDb (Users db) (Accounts db) (Transactions db ++ [tx]))).

Definition User_create (u : User) : M User :=
  driver (UserCreate (user_id u))
    (fun db => (u, mkDb (Users db ++ [u]) (Accounts db) (Transactions db))).

Definition Account_create (a : Account) : M unit :=
  driver (AccountCreate (userId a) (balance a))
    (fun db => (tt, mkDb (Users db) (Accounts db ++ [a]) (Transactions db))).

(** Running a handler on a store: what it answers (or that it threw), the
    store it leaves, and the driver calls it made. *)
Definition run {A} (h : M A) (env : Env) (d : Db) : Res A * Db * list Event :=
  match h env (mkSt d None O []) with
  | (r, s) => (r, store s, trace s)
  end.

Definition no_faults : nat -> bool := fun _ => false.

(** ** The transfer route ([router.post('/transfer')]) *)

Definition Issue := (string * string)%type.

Record TransferBody := mkTransferBody {
  body_to : string;
  body_amount : Number.t;
  body_description : option string
}.

(** [transferBody.safeParse]: every check of every field is run and the
    issues are collected in field order; [zod.number()] refuses NaN before
    its own checks. *)
Definition check_to (b : TransferBody) : list Issue :=
  if (String.length (body_to b) <? 1)%nat
  then [("to", "Recipient is required")] else [].

Definition check_amount (b : TransferBody) : list Issue :=
  let a := body_amount b in
  if Number.isNaN a then [("amount", "Expected number, received nan")]
  else
    (if Number.le a 0%float then [("amount", "Amount must be positive")] else [])
    ++ (if Number.gt a 100000%float then [("amount", "Amount too large")] else []).

Definition check_description (b : TransferBody) : list Issue :=
  match body_description b with
  | Some d =>
      if (200 <? String.length d)%nat
      then [("description", "String must contain at most 200 character(s)")]
      else []
  | None => []
  end.

Definition transferBody (b : TransferBody) : list Issue + TransferBody :=
  match check_to b ++ check_amount b ++ check_description b with
  | [] => inr b
  | issues => inl issues
  end.

Inductive TransferResponse :=
| ValidationFailed (errors : list Issue)                      (* 400 *)
| CannotTransferToSelf                                        (* 400 *)
| SenderAccountNotFound                                       (* 404 *)
| InsufficientBalance                                         (* 400 *)
| RecipientAccountNotFound                                    (* 404 *)
| RecipientUserNotFound                                       (* 404 *)
| TransferSuccessful (transactionId : ObjectId) (a : Number.t)
                     (name uname : string)                    (* 200 *)
| TransferFailedTryAgain.                                     (* 500 *)

(** What the routes show of a user: everything but the password. *)
Record PublicUser := mkPublicUser {
  pu_id : ObjectId;
  pu_username : string;
  pu_firstName : string;
  pu_lastName : string
}.

Definition public (u : User) : PublicUser :=
  mkPublicUser (user_id u) (username u) (firstName u) (lastName u).

Definition full_name (u : User) : string :=
  (firstName u ++ " " ++ lastName u)%string.

Definition post_transfer (uid : ObjectId) (body : TransferBody) : M TransferResponse :=
  startSession ;;
  finally
    (try_catch
       (match transferBody body with
        | inl issues => ret (ValidationFailed issues)
        | inr data =>
            let to := body_to data in
            let amount := body_amount data in
            let description :=
              match body_description data with Some d => d | None => EmptyString end in
            if String.eqb to uid then ret CannotTransferToSelf
            else
              startTransaction ;;
              senderAccount <- Account_findOne uid ;;
              match senderAccount with
              | None => abortTransaction ;; ret SenderAccountNotFound
              | Some senderAccount =>
                  if Number.lt (balance senderAccount) amount then
                    abortTransaction ;; ret InsufficientBalance
                  else
                    recipientAccount <- Account_findOne to ;;
                    match recipientAccount with
                    | None => abortTransaction ;; ret RecipientAccountNotFound
                    | Some _ =>
                        recipientUser <- User_findById to ;;
                        match recipientUser with
                        | None => abortTransaction ;; ret RecipientUserNotFound
                        | Some recipientUser =>
                            Account_updateOne uid (Number.neg amount) ;;
                            Account_updateOne to amount ;;
                            env <- ask ;;
                            transaction <-
                              Transaction_create
                                (mkTransaction (newId env) uid to amount completed
                                               description (now env)) ;;
                            commitTransaction ;;
                            ret (TransferSuccessful (tx_id transaction) amount
                                   (full_name recipientUser) (username recipientUser))
                        end
                    end
              end
        end)
       (abortTransaction ;; ret TransferFailedTryAgain))
    endSession.

(** The error taxonomy of the design, and where each answer of the route
    falls in it. *)
Inductive TransferError :=
| InvalidRequest | SelfTransfer | AccountNotFound | InsufficientFunds | TransferFailed.

Definition error_of (r : TransferResponse) : option TransferError :=
  match r with
  | ValidationFailed _ => Some InvalidRequest
  | CannotTransferToSelf => Some SelfTransfer
  | SenderAccountNotFound | RecipientAccountNotFound | RecipientUserNotFound =>
      Some AccountNotFound
  | InsufficientBalance => Some InsufficientFunds
  | TransferFailedTryAgain => Some TransferFailed
  | TransferSuccessful _ _ _ _ => None
  end.

(** A call succeeded when the route answered 200. *)
Definition succeeded (r : Res TransferResponse) : bool :=
  match r with
  | Val (TransferSuccessful _ _ _ _) => true
  | _ => false
  end.

Definition transfer (env : Env) (d : Db) (uid : ObjectId) (body : TransferBody) :=
  run (post_transfer uid body) env d.

(** ** Reading the transaction log *)

(** [.sort({ createdAt: -1 })], as a stable insertion sort: newest first,
    documents of the same instant in insertion order. *)
Fixpoint insert_desc (tx : Transaction) (l : list Transaction) : list Transaction :=
  match l with
  | [] => [tx]
  | h :: t =>
      if createdAt h <=? createdAt tx then tx :: h :: t
      else h :: insert_desc tx t
  end.

Definition sort_desc (l : list Transaction) : list Transaction :=
  fold_right insert_desc [] l.

(** [.limit(n)]: zero means no limit, and the driver sends a negative limit
    as its absolute value. *)
Definition mongo_limit {A} (n : Z) (l : list A) : list A :=
  if n =? 0 then l else firstn (Z.to_nat (Z.abs n)) l.

(** A transaction with its two user references populated; a reference to a
    user that does not exist is populated with [null]. *)
Record Populated := mkPopulated {
  doc : Transaction;
  from_user : option User;
  to_user : option User
}.

Definition populate (d : Db) (tx : Transaction) : Populated :=
  mkPopulated tx (findOne (byId (fromUserId tx)) (Users d))
                 (findOne (byId (toUserId tx)) (Users d)).

Definition matching (u : ObjectId) (d : Db) : list Transaction :=
  filter (involves u) (Transactions d).

Definition find_sorted (u : ObjectId) (skip limit : Z) (d : Db) : list Transaction :=
  mongo_limit limit (skipn (Z.to_nat skip) (sort_desc (matching u d))).

(** [Transaction.find(...).populate(...).populate(...).sort(...).skip(s).limit(n)];
    the server refuses a negative skip. *)
Definition Transaction_find (u : ObjectId) (skip limit : Z) : M (list Populated) :=
  r <- driver (TransactionFind u)
         (fun d => (if skip <? 0 then None
                    else Some (map (populate d) (find_sorted u skip limit d)), d)) ;;
  match r with
  | Some l => ret l
  | None => throw
  end.

Definition Transaction_countDocuments (u : ObjectId) : M Z :=
  driver (TransactionCount u) (fun d => (Z.of_nat (List.length (matching u d)), d)).

(** [parseInt(req.query.x) || dflt]: the parameter is given as what
    [parseInt] makes of it, [None] for NaN. *)
Definition or_default (q : option Z) (dflt : Z) : Z :=
  match q with
  | Some z => if z =? 0 then dflt else z
  | None => dflt
  end.

(** [Math.ceil(total / limit)] on integers. *)
Definition ceil_div (a b : Z) : Z := - ((- a) / b).

(** [for each tx: f tx], where [f] may throw. *)
Fixpoint mapM {A B} (f : A -> option B) (l : list A) : M (list B) :=
  match l with
  | [] => ret []
  | x :: l' =>
      match f x with
      | Some y => ys <- mapM f l' ;; ret (y :: ys)
      | None => throw
      end
  end.

(** ** The history route ([router.get('/transactions')]) *)

Inductive Direction := sent | received.

Record HistoryItem := mkHistoryItem {
  h_id : ObjectId;
  h_amount : Number.t;
  h_type : Direction;
  h_otherUser : string;
  h_description : string;
  h_status : Status;
  h_date : Z
}.

Record Pagination := mkPagination {
  page : Z;
  limit : Z;
  total : Z;
  pages : Z
}.

Inductive HistoryResponse :=
| HistoryOk (transactions : list HistoryItem) (pagination : Pagination)   (* 200 *)
| HistoryInternalError.                                                    (* 500 *)

(** Reading [x._id] or [x.firstName] of a populated reference that is
    [null] throws. *)
Definition format_history (uid : ObjectId) (p : Populated) : option HistoryItem :=
  let tx := doc p in
  match from_user p with
  | None => None
  | Some f =>
      if String.eqb (user_id f) uid then
        match to_user p with
        | None => None
        | Some t =>
            Some (mkHistoryItem (tx_id tx) (amount tx) sent (full_name t)
                                (description tx) (status tx) (createdAt tx))
        end
      else
        Some (mkHistoryItem (tx_id tx) (amount tx) received (full_name f)
                            (description tx) (status tx) (createdAt tx))
  end.

Definition get_transactions (uid : ObjectId) (qpage qlimit : option Z) : M HistoryResponse :=
  try_catch
    (let page := or_default qpage 1 in
     let limit := or_default qlimit 10 in
     let skip := (page - 1) * limit in
     transactions <- Transaction_find uid skip limit ;;
     total <- Transaction_countDocuments uid ;;
     formattedTransactions <- mapM (format_history uid) transactions ;;
     ret (HistoryOk formattedTransactions
            (mkPagination page limit total (ceil_div total limit))))
    (ret HistoryInternalError).

(** ** The balance and statement routes *)

Inductive BalanceResponse :=
| BalanceOk (b : Number.t) (uid : ObjectId)   (* 200 *)
| BalanceAccountNotFound                       (* 404 *)
| BalanceInternalError.                        (* 500 *)

Definition get_balance (uid : ObjectId) : M BalanceResponse :=
  try_catch
    (account <- Account_findOne uid ;;
     match account with
     | None => ret BalanceAccountNotFound
     | Some account =>
         env <- ask ;;
         ret (BalanceOk (toFixed2 env (balance account)) uid)
     end)
    (ret BalanceInternalError).

Inductive EntryType := debit | credit.

Record StatementItem := mkStatementItem {
  s_id : ObjectId;
  s_amount : Number.t;
  s_type : EntryType;
  s_description : string;
  s_otherParty : string;
  s_date : Z;
  s_status : Status
}.

Inductive StatementResponse :=
| StatementOk (currentBalance : Number.t) (recentTransactions : list StatementItem)
| StatementInternalError.

Definition format_statement (uid : ObjectId) (p : Populated) : option StatementItem :=
  let tx := doc p in
  let descr :=
    match description tx with
    | EmptyString => "Money transfer"
    | d => d
    end in
  match from_user p with
  | None => None
  | Some f =>
      if String.eqb (user_id f) uid then
        match to_user p with
        | None => None
        | Some t =>
            Some (mkStatementItem (tx_id tx) (amount tx) debit descr (full_name t)
                                  (createdAt tx) (status tx))
        end
      else
        Some (mkStatementItem (tx_id tx) (amount tx) credit descr (full_name f)
                              (createdAt tx) (status tx))
  end.

Definition get_statement (uid : ObjectId) (qlimit : option Z) : M StatementResponse :=
  try_catch
    (let limit := or_default qlimit 5 in
     recentTransactions <- Transaction_find uid 0 limit ;;
     account <- Account_findOne uid ;;
     formattedTransactions <- mapM (format_statement uid) recentTransactions ;;
     env <- ask ;;
     ret (StatementOk
            (match account with
             | Some a => toFixed2 env (balance a)
             | None => 0%float
             end)
            formattedTransactions))
    (ret StatementInternalError).

(** ** Sign-up and profile update ([backend/routes/user.js]) *)

Record SignupBody := mkSignupBody {
  su_username : string;
  su_firstName : string;
  su_lastName : string;
  su_password : string
}.

Definition between (lo hi : nat) (s : string) : bool :=
  ((lo <=? String.length s) && (String.length s <=? hi))%nat.

Definition signupBody (email : string -> bool) (b : SignupBody) : list Issue + SignupBody :=
  match
    (if email (su_username b) then [] else [("username", "Invalid email format")])
    ++ (if (String.length (su_firstName b) <? 1)%nat
        then [("firstName", "First name is required")] else [])
    ++ (if (50 <? String.length (su_firstName b))%nat
        then [("firstName", "String must contain at most 50 character(s)")] else [])
    ++ (if (String.length (su_lastName b) <? 1)%nat
        then [("lastName", "Last name is required")] else [])
    ++ (if (50 <? String.length (su_lastName b))%nat
        then [("lastName", "String must contain at most 50 character(s)")] else [])
    ++ (if (String.length (su_password b) <? 6)%nat
        then [("password", "Password must be at least 6 characters")] else [])
  with
  | [] => inr b
  | issues => inl issues
  end.

(** [1000 + Math.random() * 9000] *)
Definition initial_balance (r : Number.t) : Number.t :=
  Number.add 1000%float (Number.mul r 9000%float).

Inductive SignupResponse :=
| SignupValidationFailed (errors : list Issue)     (* 400 *)
| UserAlreadyExists                                (* 409 *)
| UserCreated (token : string) (user : PublicUser) (* 201 *)
| SignupInternalError.                             (* 500 *)

Definition post_signup (body : SignupBody) : M SignupResponse :=
  try_catch
    (env <- ask ;;
     match signupBody (isEmail env) body with
     | inl issues => ret (SignupValidationFailed issues)
     | inr data =>
         existingUser <- User_findOne (su_username data) ;;
         match existingUser with
         | Some _ => ret UserAlreadyExists
         | None =>
             let hashedPassword := bcrypt_hash env (su_password data) in
             user <- User_create (mkUser (newId env) (su_username data) hashedPassword
                                         (su_firstName data) (su_lastName data)) ;;
             Account_create (mkAccount (user_id user) (initial_balance (random env))) ;;
             ret (UserCreated (jwt_sign env (user_id user)) (public user))
         end
     end)
    (ret SignupInternalError).

Record UpdateBody := mkUpdateBody {
  up_firstName : option string;
  up_lastName : option string;
  up_password : option string
}.

Definition opt_ok (p : string -> bool) (o : option string) : bool :=
  match o with
  | Some s => p s
  | None => true
  end.

Definition updateBody (b : UpdateBody) : bool :=
  opt_ok (between 1 50) (up_firstName b)
  && opt_ok (between 1 50) (up_lastName b)
  && opt_ok (fun s => (6 <=? String.length s)%nat) (up_password b).

Definition apply_update (hash : string -> string) (b : UpdateBody) (u : User) : User :=
  mkUser (user_id u) (username u)
         (match up_password b with
          | Some p => if (String.length p =? 0)%nat then p else hash p
          | None => password u
          end)
         (match up_firstName b with Some f => f | None => firstName u end)
         (match up_lastName b with Some l => l | None => lastName u end).

Definition User_findByIdAndUpdate (u : ObjectId) (f : User -> User) : M (option User) :=
  driver (UserFindByIdAndUpdate u)
    (fun db =>
       let us := updateOne (byId u) f (Users db) in
       (findOne (byId u) us, mkDb us (Accounts db) (Transactions db))).

Inductive ProfileResponse :=
| ProfileValidationFailed            (* 400 *)
| ProfileUpdated (u : option PublicUser)   (* 200 *)
| ProfileInternalError.              (* 500 *)

Definition put_profile (uid : ObjectId) (body : UpdateBody) : M ProfileResponse :=
  try_catch
    (if updateBody body then
       env <- ask ;;
       updatedUser <- User_findByIdAndUpdate uid (apply_update (bcrypt_hash env) body) ;;
       ret (ProfileUpdated (option_map public updatedUser))
     else ret ProfileValidationFailed)
    (ret ProfileInternalError).

(** ** The system as a whole *)

(** The requests that reach the store.  The remaining routes (sign-in,
    reading a profile, searching users) only read the user collection. *)
Inductive Request :=
| Signup (body : SignupBody)
| Transfer (uid : ObjectId) (body : TransferBody)
| GetBalance (uid : ObjectId)
| GetStatement (uid : ObjectId) (qlimit : option Z)
| GetTransactions (uid : ObjectId) (qpage qlimit : option Z)
| PutProfile (uid : ObjectId) (body : UpdateBody).

Definition after {A} (r : Res A * Db * list Event) : Db := snd (fst r).

(** The store a request leaves behind. *)
Definition serve (env : Env) (rq : Request) (d : Db) : Db :=
  match rq with
  | Signup body => after (run (post_signup body) env d)
  | Transfer uid body => after (run (post_transfer uid body) env d)
  | GetBalance uid => after (run (get_balance uid) env d)
  | GetStatement uid ql => after (run (get_statement uid ql) env d)
  | GetTransactions uid qp ql => after (run (get_transactions uid qp ql) env d)
  | PutProfile uid body => after (run (put_profile uid body) env d)
  end.

(** [Math.random()] returns a number in the half-open interval from 0 to 1. *)
Definition random_ok (env : Env) : Prop :=
  Number.le 0%float (random env) = true /\ Number.lt (random env) 1%float = true.

(** The stores the system can be in: it starts empty and serves requests. *)
Inductive reachable : Db -> Prop :=
| reach_empty : reachable empty_db
| reach_serve env rq d :
    reachable d -> random_ok env -> reachable (serve env rq d).

(** ** Observations used in the statements *)

(** The balance the system reports for a user: that of the account
    [Account.findOne({ userId })] returns. *)
Definition balance_of (d : Db) (u : ObjectId) : option Number.t :=
  option_map balance (findOne (byUserId u) (Accounts d)).

(** A request got past [transferBody.safeParse]. *)
Definition valid (body : TransferBody) : Prop := transferBody body = inr body.

(** The record a successful transfer appends. *)
Definition record_of (env : Env) (uid : ObjectId) (body : TransferBody) : Transaction :=
  mkTransaction (newId env) uid (body_to body) (body_amount body) completed
    (match body_description body with Some s => s | None => EmptyString end)
    (now env).

(** The accounts after debit and credit. *)
Definition moved (uid : ObjectId) (body : TransferBody) (l : list Account) : list Account :=
  updateOne (byUserId (body_to body)) (inc_balance (body_amount body))
    (updateOne (byUserId uid) (inc_balance (Number.neg (body_amount body))) l).

(** Driver calls that read or write a collection. *)
Definition touches_store (ev : Event) : bool :=
  match ev with
  | StartSession | EndSession | StartTransaction | AbortTransaction | CommitTransaction => false
  | _ => true
  end.

(** The sum of two balances as rational numbers, when both are finite. *)
Definition exact_sum (x y : Number.t) : option Q :=
  match Number.exact x, Number.exact y with
  | Some p, Some q => Some (Qred (p + q))
  | _, _ => None
  end.

(** Every balance of the store is at least zero. *)
Definition all_nonneg (d : Db) : Prop :=
  forall a, In a (Accounts d) -> Number.nonneg (balance a).

(** Every record of the log is a completed transfer. *)
Definition all_completed (d : Db) : Prop :=
  forall tx, In tx (Transactions d) -> status tx = completed.

(** A number that is a whole count of minor units (hundredths). *)
Definition whole_minor_units (x : Number.t) : bool :=
  match Number.exact x with
  | Some q => Pos.eqb (Qden (Qred (q * 100))) 1
  | None => false
  end.

(** ** Sample data *)

Module Sample.

Definition env (r : Number.t) (id : ObjectId) (t : Z) : Env :=
  mkEnv no_faults r t id (fun _ => true) (fun s => s) (fun s => s) (fun x => x).

(** The commit, seventh driver call of a transfer that gets that far, throws. *)
Definition commit_fails : Env :=
  mkEnv (fun n => Nat.eqb n 6) 0.5%float 7 "t9" (fun _ => true)
        (fun s => s) (fun s => s) (fun x => x).

Definition alice : User := mkUser "a" "alice@example.org" "h1" "Alice" "Ames".
Definition bob : User := mkUser "b" "bob@example.org" "h2" "Bob" "Birk".

Definition bank (x y : Number.t) : Db :=
  mkDb [alice; bob] [mkAccount "a" x; mkAccount "b" y] [].

Definition pay (recipient : string) (a : Number.t) : TransferBody :=
  mkTransferBody recipient a None.

Definition join (name : string) : SignupBody :=
  mkSignupBody name "New" "User" "secret1".

End Sample.

(** What [mapM] computes, without the monad. *)
Fixpoint traverse {A B} (f : A -> option B) (l : list A) : option (list B) :=
  match l with
  | [] => Some []
  | x :: l' =>
      match f x, traverse f l' with
      | Some y, Some ys => Some (y :: ys)
      | _, _ => None
      end
  end.

(** The account sign-up opens. *)
Definition opened_account (env : Env) : Account :=
  mkAccount (newId env) (initial_balance (random env)).


(** A user with this [_id] exists. *)
Definition known (d : Db) (u : ObjectId) : Prop :=
  findOne (byId u) (Users d) <> None.

(** Every account and every record refers to users that exist. *)
Definition refs_ok (d : Db) : Prop :=
  (forall a, In a (Accounts d) -> known d (userId a))
  /\ (forall tx, In tx (Transactions d) ->
        known d (fromUserId tx) /\ known d (toUserId tx)).

(** ** Binary64 numbers as [SpecFloat] describes them *)

Module Binary64.

Abbreviation fexp := (SpecFloat.fexp prec emax).
Abbreviation finite := S754_finite.

(** Where the exact value lies between two multiples of [2 ^ n], told by
    the remainder. *)
Definition loc_rem (n : nat) (rem : Z) : location :=
  if rem =? 0 then loc_Exact else loc_Inexact (2 * rem ?= 2 ^ Z.of_nat n).

(** What rounding yields: zero, a finite number or an infinity of the
    given sign. *)
Definition pack (s : bool) (m e : Z) : spec_float :=
  match m with
  | Z0 => S754_zero s
  | Zpos p => if e <=? emax - prec then finite s p e else S754_infinity s
  | Zneg _ => S754_nan
  end.

(** The value of a finite number, in units of [2 ^ -1074]. *)
Definition val (m : positive) (e : Z) : Z := Zpos m * 2 ^ (e + 1074).

(** Zero of either sign, a positive number or plus infinity. *)
Definition nonnegSF (x : spec_float) : bool :=
  match x with
  | S754_zero _ => true
  | S754_infinity s => negb s
  | S754_nan => false
  | S754_finite s _ _ => negb s
  end.

(** The numbers 1, 1000, 9000 and 10000. *)
Definition one_SF : spec_float := finite false 4503599627370496 (-52).
Definition c1000 : spec_float := finite false 8796093022208000 (-43).
Definition c9000 : spec_float := finite false 4947802324992000 (-39).
Definition c10000 : spec_float := finite false 5497558138880000 (-39).
Definition c100000 : spec_float := finite false 6871947673600000 (-36).

End Binary64.

(** The same transfer, made [n] times in a row. *)
Fixpoint again (n : nat) (env : Env) (uid : ObjectId) (body : TransferBody) (d : Db) : Db :=
  match n with
  | O => d
  | S n' => again n' env uid body (serve env (Transfer uid body) d)
  end.

(** Two users who signed up, and the same after the first paid the second. *)
Module Town.

Definition founded : Db :=
serve (Sample.env 0.25 "b" 2) (Signup (Sample.join "bob@example.org"))
  (serve (Sample.env 0.5 "a" 1) (Signup (Sample.join "alice@example.org")) empty_db).

Definition paid : Db :=
serve (Sample.env 0.5 "t1" 3) (Transfer "a" (Sample.pay "b" 100)) founded.

End Town.

(** ** Sign-in, reading a profile and searching users ([backend/routes/user.js]) *)

Record SigninBody := mkSigninBody {
  si_username : string;
  si_password : string
}.

Definition signinBody (email : string -> bool) (b : SigninBody) : list Issue + SigninBody :=
  match
    (if email (si_username b) then [] else [("username", "Invalid email format")])
    ++ (if (String.length (si_password b) <? 1)%nat
        then [("password", "Password is required")] else [])
  with
  | [] => inr b
  | issues => inl issues
  end.

Inductive SigninResponse :=
| SigninValidationFailed (errors : list Issue)        (* 400 *)
| InvalidCredentials                                  (* 401 *)
| LoginSuccessful (token : string) (user : PublicUser) (* 200 *)
| SigninInternalError.                                (* 500 *)

(** [compare] is [bcrypt.compare]: whether a password matches a stored
    hash. *)
Definition post_signin (compare : string -> string -> bool) (body : SigninBody)
  : M SigninResponse :=
  try_catch
    (env <- ask ;;
     match signinBody (isEmail env) body with
     | inl issues => ret (SigninValidationFailed issues)
     | inr data =>
         user <- User_findOne (si_username data) ;;
         match user with
         | None => ret InvalidCredentials
         | Some user =>
             if compare (si_password data) (password user) then
               ret (LoginSuccessful (jwt_sign env (user_id user)) (public user))
             else ret InvalidCredentials
         end
     end)
    (ret SigninInternalError).

Inductive ProfileView :=
| ProfileOk (user : PublicUser) (b : Number.t)   (* 200 *)
| ProfileUserNotFound                            (* 404 *)
| ProfileViewInternalError.                      (* 500 *)

Definition get_profile (uid : ObjectId) : M ProfileView :=
  try_catch
    (user <- User_findById uid ;;
     match user with
     | None => ret ProfileUserNotFound
     | Some user =>
         account <- Account_findOne uid ;;
         ret (ProfileOk (public user)
                (match account with
                 | Some a => balance a
                 | None => 0%float
                 end))
     end)
    (ret ProfileViewInternalError).

Record SearchHit := mkSearchHit {
  sh_id : ObjectId;
  sh_username : string;
  sh_firstName : string;
  sh_lastName : string;
  sh_fullName : string
}.

Definition hit (u : User) : SearchHit :=
  mkSearchHit (user_id u) (username u) (firstName u) (lastName u) (full_name u).

(** The query of the search route; [matches f s] is what
    [{ $regex: f, $options: 'i' }] says of the field value [s]. *)
Definition search_query (matches : string -> string -> bool) (uid : ObjectId)
  (f : string) (u : User) : bool :=
  negb (String.eqb (user_id u) uid)
  && (matches f (firstName u) || matches f (lastName u) || matches f (username u)).

Inductive SearchResponse :=
| SearchOk (users : list SearchHit)   (* 200 *)
| SearchInternalError.                (* 500 *)

(** The search route reads the user collection once; [throws] says whether
    that read throws.  [qfilter] is [req.query.filter], [None] when absent. *)
Definition get_search (matches : string -> string -> bool) (throws : bool)
  (uid : ObjectId) (qfilter : option string) (d : Db) : SearchResponse :=
  let f := match qfilter with Some s => s | None => EmptyString end in
  if (String.length f <? 2)%nat then SearchOk []
  else if throws then SearchInternalError
  else SearchOk (map hit (firstn 10 (filter (search_query matches uid f) (Users d)))).

(** ** Reading a trace *)

Definition is_start (ev : Event) : bool :=
  match ev with StartTransaction => true | _ => false end.

Definition is_abort (ev : Event) : bool :=
  match ev with AbortTransaction => true | _ => false end.

Definition is_write (ev : Event) : bool :=
  match ev with
  | AccountUpdateOne _ _ | AccountCreate _ _ | UserCreate _
  | UserFindByIdAndUpdate _ | TransactionCreate _ _ _ => true
  | _ => false
  end.

(** The last two entries are the commit and the end of the session. *)
Definition ends_committed (tr : list Event) : bool :=
  match rev tr with
  | EndSession :: CommitTransaction :: _ => true
  | _ => false
  end.

(** What [Transaction.countDocuments] returns for a user. *)
Definition count_for (u : ObjectId) (d : Db) : Z := Z.of_nat (List.length (matching u d)).



(** ** The history page of the front end ([frontend/src/pages/Transactions.jsx]) *)

(** The component's state, as far as paging goes. *)
Record PageState := mkPageState {
  currentPage : Z;
  totalPages : Z;
  isLoading : bool
}.

(** [useState(1)], [useState(1)], [useState(true)] *)
Definition first_render : PageState := mkPageState 1 1 true.

(** The paging buttons are rendered when [totalPages > 1]. *)
Definition pagination_shown (s : PageState) : bool := 1 <? totalPages s.

Definition previous_disabled (s : PageState) : bool :=
  (currentPage s =? 1) || isLoading s.

Definition next_disabled (s : PageState) : bool :=
  (currentPage s =? totalPages s) || isLoading s.

(** [setCurrentPage(currentPage - 1)]; the effect that depends on
    [currentPage] then runs [fetchTransactions], which starts with
    [setIsLoading(true)]. *)
Definition click_previous (s : PageState) : PageState :=
  mkPageState (currentPage s - 1) (totalPages s) true.

Definition click_next (s : PageState) : PageState :=
  mkPageState (currentPage s + 1) (totalPages s) true.

(** The rest of [fetchTransactions]: [setTotalPages(response.pagination.pages)]
    on an answer 200, nothing on an error, and [setIsLoading(false)] in
    either case. *)
Definition fetched (r : Res HistoryResponse) (s : PageState) : PageState :=
  match r with
  | Val (HistoryOk _ p) => mkPageState (currentPage s) (pages p) false
  | _ => mkPageState (currentPage s) (totalPages s) false
  end.

(** [userAPI.getTransactions(currentPage, 10)] as the route receives it. *)
Definition fetchTransactions (uid : ObjectId) (s : PageState) : M HistoryResponse :=
  get_transactions uid (Some (currentPage s)) (Some 10).

(** The page of user [uid] next to the store: the page is opened on a
    store the system can reach, the system serves requests in the meantime,
    a fetch that is under way ends, and the user clicks a button that is shown
    and not disabled. *)
Inductive browsing (uid : ObjectId) : PageState -> Db -> Prop :=
| browse_open d : reachable d -> browsing uid first_render d
| browse_serve s d env rq :
    browsing uid s d -> random_ok env -> browsing uid s (serve env rq d)
| browse_fetched s d env :
    browsing uid s d -> isLoading s = true ->
    browsing uid (fetched (fst (fst (run (fetchTransactions uid s) env d))) s) d
| browse_previous s d :
    browsing uid s d -> pagination_shown s = true -> previous_disabled s = false ->
    browsing uid (click_previous s) d
| browse_next s d :
    browsing uid s d -> pagination_shown s = true -> next_disabled s = false ->
    browsing uid (click_next s) d.

(** The last page of the history of [u] in pages of ten, 1 when there is
    nothing to show. *)
Definition last_page (u : ObjectId) (d : Db) : Z :=
  Z.max 1 (ceil_div (count_for u d) 10).

(** What the history route makes of a record for user [u]. *)
Definition history_entry (d : Db) (u : ObjectId) (tx : Transaction) (it : HistoryItem) : Prop :=
  h_id it = tx_id tx
  /\ h_amount it = amount tx
  /\ h_date it = createdAt tx
  /\ h_status it = status tx
  /\ h_description it = description tx
  /\ (h_type it = sent <-> fromUserId tx = u)
  /\ exists o,
       findOne (byId (if String.eqb (fromUserId tx) u
                      then toUserId tx else fromUserId tx)) (Users d) = Some o
       /\ h_otherUser it = full_name o.

(** * Verification *)

(** ** Symbolic execution of handlers *)

Ltac unfold_handler :=
  unfold transfer, run, post_transfer, finally, try_catch, bind, ret, throw, ask,
    startSession, startTransaction, abortTransaction, endSession, commitTransaction,
    Account_findOne, User_findById, Account_updateOne, Transaction_create,
    driver, local, rollback in *;
  cbn [store opened calls trace fst snd] in *.

Ltac branch :=
  match goal with
  | |- context [if ?c then _ else _] => destruct c eqn:?; cbn
  | |- context [match findOne ?p ?l with _ => _ end] => destruct (findOne p l) eqn:?; cbn
  end.

Lemma transferBody_inr body data : transferBody body = inr data -> data = body.
Proof.
  unfold transferBody. destruct (_ ++ _); congruence.
Qed.

(** What is known when the route answers 200. *)
Lemma transfer_succeeds env d uid body r d' tr :
  transfer env d uid body = (r, d', tr) ->
  succeeded r = true ->
  exists sender recipient recipientUser,
    valid body
    /\ String.eqb (body_to body) uid = false
    /\ findOne (byUserId uid) (Accounts d) = Some sender
    /\ Number.lt (balance sender) (body_amount body) = false
    /\ findOne (byUserId (body_to body)) (Accounts d) = Some recipient
    /\ findOne (byId (body_to body)) (Users d) = Some recipientUser
    /\ d' = mkDb (Users d) (moved uid body (Accounts d))
                 (Transactions d ++ [record_of env uid body]).
Proof.
  unfold valid, moved, record_of. unfold_handler.
  destruct (transferBody body) as [issues | data] eqn:Hv.
  - intros H; inversion H; subst; intro; discriminate.
  - apply transferBody_inr in Hv as ->.
    repeat branch;
      intros H; inversion H; subst; intros Hs; try discriminate Hs.
    do 3 eexists. repeat split; eauto.
Qed.

(** A call that does not answer 200 leaves the store as it found it. *)
Lemma transfer_fails env d uid body r d' tr :
  transfer env d uid body = (r, d', tr) ->
  succeeded r = false ->
  d' = d.
Proof.
  unfold_handler.
  destruct (transferBody body) as [issues | data] eqn:Hv.
  - intros H; inversion H; subst; reflexivity.
  - apply transferBody_inr in Hv as ->.
    repeat branch;
      intros H; inversion H; subst; intros Hs; try discriminate Hs; reflexivity.
Qed.

(** The route always answers. *)
Lemma transfer_answers env d uid body :
  exists r, fst (fst (transfer env d uid body)) = Val r.
Proof.
  unfold_handler.
  destruct (transferBody body) as [issues | data] eqn:Hv.
  - eexists; reflexivity.
  - repeat branch; eexists; reflexivity.
Qed.

(** ** Failing transfers *)

Lemma error_not_succeeded resp e : error_of resp = Some e -> succeeded (Val resp) = false.
Proof. destruct resp; simpl; congruence. Qed.

(** C3. A transfer that fails, whatever the error (InvalidRequest,
    SelfTransfer, AccountNotFound, InsufficientFunds or TransferFailed),
    leaves the whole store as it was: the two balances are those of before
    the call and the log has no new record. *)
Theorem failed_transfer_changes_nothing env d uid body resp e d' tr :
  transfer env d uid body = (Val resp, d', tr) ->
  error_of resp = Some e ->
  d' = d
  /\ balance_of d' uid = balance_of d uid
  /\ balance_of d' (body_to body) = balance_of d (body_to body)
  /\ Transactions d' = Transactions d.
Proof.
  intros Hrun He.
  assert (d' = d) as ->
      by (eapply transfer_fails; eauto using error_not_succeeded).
  repeat split.
Qed.

Lemma failed_transfer_changes_nothing_witness :
  transfer Sample.commit_fails (Sample.bank 1000 500) "a" (Sample.pay "b" 300)
  = (Val TransferFailedTryAgain, Sample.bank 1000 500,
     [StartSession; StartTransaction; AccountFindOne "a"; AccountFindOne "b";
      UserFindById "b"; AccountUpdateOne "a" (-300)%float; AccountUpdateOne "b" 300%float;
      TransactionCreate "a" "b" 300%float; CommitTransaction; AbortTransaction; EndSession])
  /\ Transactions (Sample.bank 1000 500) = [].
Proof.
  assert (H : transfer Sample.commit_fails (Sample.bank 1000 500) "a" (Sample.pay "b" 300)
              = (Val TransferFailedTryAgain, Sample.bank 1000 500,
                 [StartSession; StartTransaction; AccountFindOne "a"; AccountFindOne "b";
                  UserFindById "b"; AccountUpdateOne "a" (-300)%float;
                  AccountUpdateOne "b" 300%float;
                  TransactionCreate "a" "b" 300%float; CommitTransaction;
                  AbortTransaction; EndSession])) by (vm_compute; reflexivity).
  split; [exact H |].
  exact (proj2 (proj2 (proj2
    (failed_transfer_changes_nothing Sample.commit_fails (Sample.bank 1000 500) "a"
       (Sample.pay "b" 300) (e := TransferFailed) H eq_refl)))).
Defined.

(** *** Input validation *)

Lemma invalid_amount_issue body :
  Number.le (body_amount body) 0%float = true
  \/ Number.gt (body_amount body) 100000%float = true ->
  check_amount body <> [].
Proof.
  unfold check_amount.
  destruct (Number.isNaN _); [discriminate |].
  intros [-> | ->].
  - discriminate.
  - destruct (Number.le _ _); discriminate.
Qed.

Lemma long_description_issue body s :
  body_description body = Some s -> (200 < String.length s)%nat ->
  check_description body <> [].
Proof.
  unfold check_description. intros -> H.
  apply Nat.ltb_lt in H. rewrite H. discriminate.
Qed.

Lemma issues_refuse body :
  check_to body ++ check_amount body ++ check_description body <> [] ->
  exists issues, issues <> [] /\ transferBody body = inl issues.
Proof.
  unfold transferBody. destruct (_ ++ _) as [| i l]; [congruence |].
  intros _. exists (i :: l). split; [discriminate | reflexivity].
Qed.

Lemma refused_untouched env d uid body issues :
  transferBody body = inl issues ->
  transfer env d uid body = (Val (ValidationFailed issues), d, [StartSession; EndSession]).
Proof.
  intros Hv. unfold_handler. rewrite Hv. reflexivity.
Qed.

(** C5. A request whose amount is at most zero or above 100000, or whose
    description has more than 200 characters, is answered InvalidRequest
    without any access to the store: the handler only makes and ends its
    session object, reads and writes no collection, and the store is as
    before. *)
Theorem invalid_request_before_store env d uid body :
  Number.le (body_amount body) 0%float = true
  \/ Number.gt (body_amount body) 100000%float = true
  \/ (exists s, body_description body = Some s /\ (200 < String.length s)%nat) ->
  exists issues tr,
    transfer env d uid body = (Val (ValidationFailed issues), d, tr)
    /\ error_of (ValidationFailed issues) = Some InvalidRequest
    /\ issues <> []
    /\ tr = [StartSession; EndSession]
    /\ forallb (fun ev => negb (touches_store ev)) tr = true.
Proof.
  intros H.
  destruct (issues_refuse body) as (issues & Hne & Hv).
  { intros E. apply app_eq_nil in E as [_ E]. apply app_eq_nil in E as [Ea Ed].
    destruct H as [H | [H | (s & Hs & Hl)]].
    - eapply invalid_amount_issue; eauto.
    - eapply invalid_amount_issue; eauto.
    - eapply long_description_issue; eauto. }
  exists issues, [StartSession; EndSession].
  rewrite (refused_untouched env d uid body Hv). repeat split; assumption.
Qed.

Lemma invalid_request_before_store_witness :
  exists issues tr,
    transfer Sample.commit_fails (Sample.bank 1000 500) "a" (Sample.pay "b" 100000.5)
    = (Val (ValidationFailed issues), Sample.bank 1000 500, tr)
    /\ error_of (ValidationFailed issues) = Some InvalidRequest
    /\ issues <> []
    /\ tr = [StartSession; EndSession]
    /\ forallb (fun ev => negb (touches_store ev)) tr = true.
Proof.
  apply (invalid_request_before_store Sample.commit_fails (Sample.bank 1000 500) "a"
           (Sample.pay "b" 100000.5)).
  right; left. reflexivity.
Defined.

(** *** Transfers to oneself *)




(** *** Order of the checks *)

(** C4 as stated fails: with a recipient that has no account and a sender
    who cannot afford the amount, the answer is InsufficientFunds. *)
Lemma missing_recipient_counterexample :
  valid (Sample.pay "ghost" 150)
  /\ findOne (byUserId "ghost") (Accounts (Sample.bank 100 500)) = None
  /\ transfer (Sample.env 0.5 "t1" 1) (Sample.bank 100 500) "a" (Sample.pay "ghost" 150)
     = (Val InsufficientBalance, Sample.bank 100 500,
        [StartSession; StartTransaction; AccountFindOne "a"; AbortTransaction; EndSession])
  /\ error_of InsufficientBalance <> Some AccountNotFound.
Proof.
  repeat split; try (vm_compute; reflexivity). discriminate.
Qed.

(** C4, amended. For a request that passes validation, is not to oneself
    and names a recipient without account, when no driver call throws: the
    sender's account is looked up first and its balance compared with the
    amount before the recipient is looked up.  So the answer is
    AccountNotFound when the sender has no account or can afford the amount,
    and InsufficientFunds when the sender's balance is below the amount.  In
    every case no update is attempted and no record is written. *)
Theorem missing_recipient env d uid body :
  valid body ->
  body_to body <> uid ->
  findOne (byUserId (body_to body)) (Accounts d) = None ->
  (forall n, faulty env n = false) ->
  exists resp tr,
    transfer env d uid body = (Val resp, d, tr)
    /\ error_of resp =
       match findOne (byUserId uid) (Accounts d) with
       | None => Some AccountNotFound
       | Some sender =>
           if Number.lt (balance sender) (body_amount body)
           then Some InsufficientFunds
           else Some AccountNotFound
       end
    /\ (forall u x, ~ In (AccountUpdateOne u x) tr)
    /\ (forall f t a, ~ In (TransactionCreate f t a) tr).
Proof.
  unfold valid. intros Hv Hto Hnone Hok.
  apply String.eqb_neq in Hto.
  unfold_handler. rewrite Hv, Hto. cbn. rewrite !Hok. cbn.
  destruct (findOne (byUserId uid) (Accounts d)) as [sender |]; cbn.
  - fold (Number.lt (balance sender) (body_amount body)).
    destruct (Number.lt (balance sender) (body_amount body)); cbn.
    + do 2 eexists. split; [reflexivity |]. split; [reflexivity |].
      split; intros; cbn; intuition discriminate.
    + rewrite Hok. cbn. rewrite Hnone. cbn.
      do 2 eexists. split; [reflexivity |]. split; [reflexivity |].
      split; intros; cbn; intuition discriminate.
  - do 2 eexists. split; [reflexivity |]. split; [reflexivity |].
    split; intros; cbn; intuition discriminate.
Qed.

Lemma missing_recipient_witness :
  exists resp tr,
    transfer (Sample.env 0.5 "t1" 1) (Sample.bank 1000 500) "a" (Sample.pay "ghost" 150)
    = (Val resp, Sample.bank 1000 500, tr)
    /\ error_of resp = Some AccountNotFound
    /\ (forall u x, ~ In (AccountUpdateOne u x) tr)
    /\ (forall f t a, ~ In (TransactionCreate f t a) tr).
Proof.
  apply (missing_recipient (Sample.env 0.5 "t1" 1) (Sample.bank 1000 500) (uid := "a")
           (body := Sample.pay "ghost" 150)).
  - reflexivity.
  - discriminate.
  - reflexivity.
  - reflexivity.
Defined.

(** ** Successful transfers *)

Section UpdateOne.
Context {A : Type} (p q : A -> bool) (f : A -> A).



End UpdateOne.

Lemma In_updateOne {A} (p : A -> bool) (f : A -> A) y l :
  In y (updateOne p f l) -> In y l \/ exists x, In x l /\ p x = true /\ y = f x.
Proof.
  induction l as [| x l IH]; simpl; [tauto |].
  destruct (p x) eqn:E; simpl.
  - intros [<- | H]; [right; exists x; auto | auto].
  - intros [<- | H]; [auto |].
    destruct (IH H) as [H' | (z & Hz & Hp & ->)]; [auto |].
    right; exists z; auto.
Qed.

Lemma length_updateOne {A} (p : A -> bool) (f : A -> A) l :
  List.length (updateOne p f l) = List.length l.
Proof.
  induction l as [| x l IH]; simpl; [reflexivity |].
  destruct (p x); simpl; congruence.
Qed.








(** ** What each request does to the store *)

Lemma mapM_traverse {A B} (f : A -> option B) l env s :
  mapM f l env s
  = (match traverse f l with Some ys => Val ys | None => Throw end, s).
Proof.
  revert s. induction l as [| x l IH]; intros s; simpl; [reflexivity |].
  destruct (f x); [| reflexivity].
  unfold bind, ret. rewrite IH. destruct (traverse f l); reflexivity.
Qed.

Ltac unfold_reads :=
  unfold run, get_balance, get_statement, get_transactions, put_profile, post_signup,
    Transaction_find, Transaction_countDocuments, User_findByIdAndUpdate,
    User_findOne, User_create, Account_create, Account_findOne,
    try_catch, bind, ret, throw, ask, driver in *;
  cbn [store opened calls trace fst snd] in *.

Lemma get_balance_reads env d uid : after (run (get_balance uid) env d) = d.
Proof.
  unfold after. unfold_reads. repeat branch; reflexivity.
Qed.

Lemma get_statement_reads env d uid ql : after (run (get_statement uid ql) env d) = d.
Proof.
  unfold after. unfold_reads.
  destruct (faulty env 0); cbn; [reflexivity |].
  destruct (faulty env 1); cbn; [reflexivity |].
  rewrite mapM_traverse. destruct (traverse _ _); reflexivity.
Qed.

Lemma get_transactions_reads env d uid qp ql :
  after (run (get_transactions uid qp ql) env d) = d.
Proof.
  unfold after. unfold_reads.
  destruct (faulty env 0); cbn; [reflexivity |].
  destruct (_ <? 0); cbn; [reflexivity |].
  destruct (faulty env 1); cbn; [reflexivity |].
  rewrite mapM_traverse. destruct (traverse _ _); reflexivity.
Qed.

Lemma put_profile_writes env d uid body :
  exists us,
    after (run (put_profile uid body) env d) = mkDb us (Accounts d) (Transactions d).
Proof.
  unfold after. unfold_reads. destruct d as [us acs txs].
  repeat branch; eexists; reflexivity.
Qed.

Lemma post_signup_writes env d body :
  let d' := after (run (post_signup body) env d) in
  d' = d
  \/ (exists u, d' = mkDb (Users d ++ [u]) (Accounts d) (Transactions d))
  \/ (exists u, d' = mkDb (Users d ++ [u]) (Accounts d ++ [opened_account env])
                          (Transactions d)).
Proof.
  unfold after, opened_account. unfold_reads. cbn zeta.
  destruct (signupBody (isEmail env) body) as [issues | data]; cbn; [auto |].
  repeat branch; eauto.
Qed.

Lemma post_transfer_writes env d uid body :
  let d' := after (transfer env d uid body) in
  d' = d
  \/ (exists sender recipient,
        valid body
        /\ body_to body <> uid
        /\ findOne (byUserId uid) (Accounts d) = Some sender
        /\ Number.lt (balance sender) (body_amount body) = false
        /\ findOne (byUserId (body_to body)) (Accounts d) = Some recipient
        /\ d' = mkDb (Users d) (moved uid body (Accounts d))
                     (Transactions d ++ [record_of env uid body])).
Proof.
  cbn zeta. unfold after.
  destruct (transfer env d uid body) as [[r d'] tr] eqn:E. cbn.
  destruct (succeeded r) eqn:Hs.
  - right. destruct (transfer_succeeds _ _ _ _ E Hs)
      as (sender & recipient & ru & Hv & Hself & H1 & H2 & H3 & _ & ->).
    apply String.eqb_neq in Hself. exists sender, recipient. auto 10.
  - left. eapply transfer_fails; eauto.
Qed.

(** Only sign-up adds an account, only a transfer that succeeds changes
    balances and adds a record. *)
Lemma serve_writes env rq d :
  let d' := serve env rq d in
  (Accounts d' = Accounts d /\ Transactions d' = Transactions d)
  \/ (Accounts d' = Accounts d ++ [opened_account env]
      /\ Transactions d' = Transactions d
      /\ exists body, rq = Signup body)
  \/ (exists uid body sender recipient,
        rq = Transfer uid body
        /\ valid body
        /\ body_to body <> uid
        /\ findOne (byUserId uid) (Accounts d) = Some sender
        /\ Number.lt (balance sender) (body_amount body) = false
        /\ findOne (byUserId (body_to body)) (Accounts d) = Some recipient
        /\ Accounts d' = moved uid body (Accounts d)
        /\ Transactions d' = Transactions d ++ [record_of env uid body]).
Proof.
  cbn zeta. destruct rq as [body | uid body | uid | uid ql | uid qp ql | uid body]; simpl.
  - destruct (post_signup_writes env d body) as [-> | [(u & ->) | (u & ->)]]; simpl; eauto 10.
  - destruct (post_transfer_writes env d uid body)
      as [H | (s & r & Hv & Hto & H1 & H2 & H3 & H)];
      unfold transfer in H; rewrite H; simpl; [auto |].
    right; right. exists uid, body, s, r. auto 10.
  - rewrite get_balance_reads. auto.
  - rewrite get_statement_reads. auto.
  - rewrite get_transactions_reads. auto.
  - destruct (put_profile_writes env d uid body) as (us & ->). auto.
Qed.

(** ** The log holds completed transfers only *)

Lemma serve_completed env rq d : all_completed d -> all_completed (serve env rq d).
Proof.
  unfold all_completed. intros H tx.
  destruct (serve_writes env rq d)
    as [(_ & ->) | [(_ & -> & _) | (uid & body & s & r & _ & _ & _ & _ & _ & _ & _ & ->)]];
    auto.
  rewrite in_app_iff. simpl. intros [Hin | [<- | []]]; auto.
Qed.

(** C9. In every store the system can reach, every record of the
    transaction log has status completed: the only write to the log is the
    one of a transfer that succeeds, and it says completed. *)
Theorem log_only_completed d : reachable d -> all_completed d.
Proof.
  induction 1 as [| env rq d Hd IH Hr].
  - intros tx [].
  - now apply serve_completed.
Qed.

(** ** Users referred to exist *)

Lemma findOne_app_some {A} (p : A -> bool) l l' :
  findOne p l <> None -> findOne p (l ++ l') <> None.
Proof.
  unfold findOne. induction l as [| x l IH]; simpl; [congruence |].
  destruct (p x); [congruence | exact IH].
Qed.

Lemma findOne_updateOne_some {A} (p q : A -> bool) f l :
  (forall x, q (f x) = q x) ->
  findOne q l <> None -> findOne q (updateOne p f l) <> None.
Proof.
  unfold findOne. intros Hq. induction l as [| x l IH]; simpl; [congruence |].
  destruct (p x) eqn:Ep; simpl.
  - rewrite Hq. destruct (q x); [congruence | auto].
  - destruct (q x); [congruence | auto].
Qed.

Lemma findOne_In {A} (p : A -> bool) l x : findOne p l = Some x -> In x l /\ p x = true.
Proof. apply find_some. Qed.

Lemma put_profile_users env d uid body u :
  known d u -> known (after (run (put_profile uid body) env d)) u.
Proof.
  unfold known, after. unfold_reads.
  repeat branch; auto.
  apply findOne_updateOne_some; auto.
Qed.

Lemma post_signup_users env d body :
  let d' := after (run (post_signup body) env d) in
  (forall u, known d u -> known d' u)
  /\ (Accounts d' = Accounts d \/ known d' (newId env)).
Proof.
  unfold known, after. unfold_reads. cbn zeta.
  destruct (signupBody (isEmail env) body) as [issues | data]; cbn; [auto |].
  repeat branch; split; auto; intros; try (apply findOne_app_some; assumption).
  right. clear. induction (Users d) as [| x l IH]; simpl.
  - unfold byId. simpl. rewrite String.eqb_refl. discriminate.
  - destruct (byId (newId env) x); [discriminate | exact IH].
Qed.

Lemma serve_refs env rq d : refs_ok d -> refs_ok (serve env rq d).
Proof.
  intros [Ha Ht].
  assert (Hk : forall u, known d u -> known (serve env rq d) u).
  { intros u Hu. destruct rq as [body | uid body | uid | uid ql | uid qp ql | uid body]; simpl.
    - now apply post_signup_users.
    - destruct (post_transfer_writes env d uid body)
        as [H | (s & r & _ & _ & _ & _ & _ & H)]; unfold transfer in H; rewrite H; auto.
    - now rewrite get_balance_reads.
    - now rewrite get_statement_reads.
    - now rewrite get_transactions_reads.
    - now apply put_profile_users. }
  destruct (serve_writes env rq d)
    as [(Ea & Et) | [(Ea & Et & body & ->)
                    | (uid & body & s & r & -> & Hv & Hto & Hs & _ & Hr & Ea & Et)]].
  - split; [rewrite Ea | rewrite Et]; intros x Hx;
      [apply Hk, Ha, Hx | split; apply Hk, Ht, Hx].
  - split; [rewrite Ea | rewrite Et].
    + intros a. rewrite in_app_iff. simpl. intros [Hin | [<- | []]]; [apply Hk, Ha, Hin |].
      simpl. destruct (post_signup_users env d body) as [_ [E | Hn]]; [| exact Hn].
      simpl in Ea. rewrite E in Ea.
      apply (f_equal (@List.length _)) in Ea. rewrite length_app in Ea. simpl in Ea. lia.
    + intros x Hx. split; apply Hk, Ht, Hx.
  - split; [rewrite Ea | rewrite Et].
    + intros a Hin. unfold moved in Hin.
      apply In_updateOne in Hin as [Hin | (x & Hin & _ & ->)];
        apply In_updateOne in Hin as [Hin | (y & Hin & _ & ->)];
        simpl; apply Hk, Ha, Hin.
    + intros tx. rewrite in_app_iff. simpl.
      intros [Hin | [<- | []]]; [split; apply Hk, Ht, Hin |].
      simpl. split; apply Hk.
      * apply findOne_In in Hs as [Hin Hid].
        apply String.eqb_eq in Hid. rewrite <- Hid. apply Ha, Hin.
      * destruct (transfer env d uid body) as [[res d'] tr] eqn:E.
        simpl in Et, Ea. unfold after in Et, Ea. unfold transfer in E. rewrite E in Et, Ea.
        simpl in Et, Ea.
        destruct (succeeded res) eqn:Hsuc.
        -- destruct (transfer_succeeds _ _ _ _ E Hsuc) as (_ & _ & ru & _ & _ & _ & _ & _ & Hu & _).
           unfold known. rewrite Hu. discriminate.
        -- pose proof (transfer_fails _ _ _ _ E Hsuc). subst d'.
           apply (f_equal (@List.length _)) in Et. rewrite length_app in Et. simpl in Et. lia.
Qed.

Lemma reachable_refs d : reachable d -> refs_ok d.
Proof.
  induction 1 as [| env rq d Hd IH Hr].
  - split; intros x [].
  - now apply serve_refs.
Qed.

(** ** Transaction history *)

Lemma insert_desc_perm tx l : Permutation (tx :: l) (insert_desc tx l).
Proof.
  induction l as [| h t IH]; simpl; [reflexivity |].
  destruct (createdAt h <=? createdAt tx); [reflexivity |].
  rewrite perm_swap. now constructor.
Qed.

Lemma sort_desc_perm l : Permutation l (sort_desc l).
Proof.
  induction l as [| x l IH]; simpl; [constructor |].
  rewrite <- insert_desc_perm. now constructor.
Qed.




Lemma In_firstn {A} n (l : list A) x : In x (firstn n l) -> In x l.
Proof.
  revert l. induction n as [| n IH]; intros [| y l]; simpl; try tauto.
  intros [-> | H]; auto.
Qed.

Lemma In_skipn {A} n (l : list A) x : In x (skipn n l) -> In x l.
Proof.
  revert l. induction n as [| n IH]; intros [| y l]; simpl; try tauto.
  intros H; auto.
Qed.







(** ** Binary64 arithmetic

    Facts about the rounding that [SpecFloat] specifies for the primitive
    operations, as far as the balance arithmetic needs them. *)

Module Rounding.

Import Binary64.

#[local] Open Scope Z_scope.

(** Powers of two with a symbolic exponent are atoms for [lia]. *)
Ltac hide_pow :=
  repeat match goal with
         | |- context [2 ^ ?x] =>
             let v := fresh "pw" in set (v := 2 ^ x) in *; clearbody v
         | H : context [2 ^ ?x] |- _ =>
             let v := fresh "pw" in set (v := 2 ^ x) in *; clearbody v
         end.

Ltac plia := hide_pow; lia.

Lemma fexp_eq z : fexp z = Z.max (z - 53) (-1074).
Proof. reflexivity. Qed.

(** *** Number of binary digits *)

Lemma digits_bounds m :
  2 ^ (Zpos (digits2_pos m) - 1) <= Zpos m < 2 ^ Zpos (digits2_pos m).
Proof.
  induction m as [p IH | p IH |]; simpl digits2_pos.
  - rewrite Pos2Z.inj_succ, (Pos2Z.inj_xI p).
    replace (Z.succ (Zpos (digits2_pos p)) - 1) with (Z.succ (Zpos (digits2_pos p) - 1)) by lia.
    rewrite !Z.pow_succ_r by lia. hide_pow. lia.
  - rewrite Pos2Z.inj_succ, (Pos2Z.inj_xO p).
    replace (Z.succ (Zpos (digits2_pos p)) - 1) with (Z.succ (Zpos (digits2_pos p) - 1)) by lia.
    rewrite !Z.pow_succ_r by lia. hide_pow. lia.
  - simpl. lia.
Qed.

Lemma digits_le m n : 0 <= n -> Zpos m < 2 ^ n -> Zpos (digits2_pos m) <= n.
Proof.
  intros Hn Hm. destruct (digits_bounds m) as [Hlo _].
  destruct (Z_le_gt_dec (Zpos (digits2_pos m)) n) as [|Hgt]; [assumption |].
  assert (2 ^ n <= 2 ^ (Zpos (digits2_pos m) - 1)) by (apply Z.pow_le_mono_r; lia).
  lia.
Qed.

Lemma digits_ge m n : 2 ^ n <= Zpos m -> n < Zpos (digits2_pos m).
Proof.
  intros Hm. destruct (digits_bounds m) as [_ Hhi].
  destruct (Z_lt_le_dec n (Zpos (digits2_pos m))) as [|Hle]; [assumption |].
  assert (2 ^ Zpos (digits2_pos m) <= 2 ^ n) by (apply Z.pow_le_mono_r; lia).
  lia.
Qed.

(** *** Shifting right keeps track of what is lost *)

Lemma iter_pos_nat {A} (f : A -> A) p x :
  SpecFloat.iter_pos f p x = Nat.iter (Pos.to_nat p) f x.
Proof.
  revert x. induction p as [p IH | p IH |]; intros x; simpl SpecFloat.iter_pos.
  - rewrite !IH, Pos2Nat.inj_xI.
    replace (S (2 * Pos.to_nat p)) with (Pos.to_nat p + (Pos.to_nat p + 1))%nat by lia.
    rewrite !Nat.iter_add. reflexivity.
  - rewrite !IH, Pos2Nat.inj_xO.
    replace (2 * Pos.to_nat p)%nat with (Pos.to_nat p + Pos.to_nat p)%nat by lia.
    rewrite Nat.iter_add. reflexivity.
  - reflexivity.
Qed.

Lemma shr_1_nonneg m r s :
  0 <= m ->
  shr_1 (Build_shr_record m r s) = Build_shr_record (m / 2) (Z.odd m) (r || s).
Proof.
  intros Hm. rewrite <- Z.div2_div.
  destruct m as [| [p | p |] | p]; try reflexivity. lia.
Qed.

Lemma shr_iter m n :
  0 <= m ->
  let mrs := Nat.iter n shr_1 (Build_shr_record m false false) in
  shr_m mrs = m / 2 ^ Z.of_nat n
  /\ loc_of_shr_record mrs = loc_rem n (m mod 2 ^ Z.of_nat n).
Proof.
  intros Hm. induction n as [| n [IHm IHl]]; cbn zeta.
  - simpl. rewrite Z.div_1_r, Z.mod_1_r. split; reflexivity.
  - rewrite Nat.iter_succ.
    destruct (Nat.iter n shr_1 (Build_shr_record m false false)) as [q r s] eqn:E.
    cbn zeta in IHm, IHl. simpl shr_m in IHm.
    assert (Hp : 0 < 2 ^ Z.of_nat n) by (apply Z.pow_pos_nonneg; lia).
    assert (Hq : 0 <= q) by (rewrite IHm; apply Z.div_pos; lia).
    rewrite shr_1_nonneg by assumption.
    rewrite Nat2Z.inj_succ, Z.pow_succ_r by lia.
    assert (Hdiv : m / (2 * 2 ^ Z.of_nat n) = q / 2).
    { rewrite IHm, Z.div_div by lia. f_equal. lia. }
    assert (Hmod : m mod (2 * 2 ^ Z.of_nat n)
                   = m mod 2 ^ Z.of_nat n + 2 ^ Z.of_nat n * (q mod 2)).
    { rewrite IHm, (Z.mul_comm 2). apply Z.rem_mul_r; lia. }
    split; [rewrite Hdiv; reflexivity |].
    rewrite Hmod.
    pose proof (Z.mod_pos_bound m (2 ^ Z.of_nat n) Hp) as Hr.
    set (rem := m mod 2 ^ Z.of_nat n) in *.
    assert (Hrs : r || s = negb (rem =? 0)).
    { unfold loc_rem in IHl. destruct (rem =? 0), r, s; simpl in *; congruence. }
    rewrite Zmod_odd. unfold loc_rem.
    rewrite Nat2Z.inj_succ, Z.pow_succ_r by lia.
    destruct (Z.odd q); simpl loc_of_shr_record; rewrite Hrs.
    + destruct (rem =? 0) eqn:E0; cbn [negb].
      * apply Z.eqb_eq in E0. rewrite E0.
        destruct (_ =? 0) eqn:E1; [apply Z.eqb_eq in E1; lia |].
        f_equal. symmetry. apply Z.compare_eq_iff. lia.
      * apply Z.eqb_neq in E0.
        destruct (_ =? 0) eqn:E1; [apply Z.eqb_eq in E1; lia |].
        f_equal. symmetry. apply Z.compare_gt_iff. lia.
    + destruct (rem =? 0) eqn:E0; cbn [negb].
      * apply Z.eqb_eq in E0. rewrite E0, Z.mul_0_r. reflexivity.
      * apply Z.eqb_neq in E0.
        destruct (_ =? 0) eqn:E1; [apply Z.eqb_eq in E1; lia |].
        f_equal. symmetry. apply Z.compare_lt_iff. lia.
Qed.

(** *** Rounding to nearest *)

Lemma shr_shift mrs e k :
  0 <= k -> shr mrs e k = (Nat.iter (Z.to_nat k) shr_1 mrs, e + k).
Proof.
  destruct k as [| p | p]; intros Hk; simpl.
  - now rewrite Z.add_0_r.
  - now rewrite iter_pos_nat.
  - lia.
Qed.

Lemma shr_no_shift mrs e k : k <= 0 -> shr mrs e k = (mrs, e).
Proof. destruct k; intros; simpl; [reflexivity | lia | reflexivity]. Qed.

Lemma rne_spec q n rem :
  0 <= rem < 2 ^ Z.of_nat n ->
  let q' := round_nearest_even q (loc_rem n rem) in
  (q' = q \/ q' = q + 1)
  /\ (q' = q + 1 -> 2 ^ Z.of_nat n <= 2 * rem)
  /\ (q' = q -> 2 * rem <= 2 ^ Z.of_nat n).
Proof.
  intros Hr. cbn zeta. unfold loc_rem, round_nearest_even.
  destruct (rem =? 0) eqn:E0.
  - apply Z.eqb_eq in E0. plia.
  - destruct (2 * rem ?= 2 ^ Z.of_nat n) eqn:Ec.
    + apply Z.compare_eq_iff in Ec. destruct (Z.even q); plia.
    + rewrite Z.compare_lt_iff in Ec. cbn iota. plia.
    + rewrite Z.compare_gt_iff in Ec. cbn iota. plia.
Qed.

Lemma renormalize s q e1 :
  -1074 <= e1 -> 0 <= q <= 2 ^ 53 ->
  exists m'' e'',
    (let '(mrs, e') := shr_fexp prec emax q e1 loc_Exact in
     match shr_m mrs with
     | Z0 => S754_zero s
     | Zpos m => if e' <=? emax - prec then finite s m e' else S754_infinity s
     | Zneg _ => S754_nan
     end) = pack s m'' e''
    /\ ((m'' = q /\ e'' = e1 /\ q < 2 ^ 53)
        \/ (q = 2 ^ 53 /\ m'' = 2 ^ 52 /\ e'' = e1 + 1)).
Proof.
  intros He Hq. unfold shr_fexp.
  destruct (Z.eq_dec q (2 ^ 53)) as [-> | Hne].
  - exists (2 ^ 52), (e1 + 1). split; [| right; auto].
    change (Zdigits2 (2 ^ 53)) with 54. rewrite fexp_eq.
    replace (Z.max (54 + e1 - 53) (-1074) - e1) with 1 by lia.
    reflexivity.
  - exists q, e1. split; [| left; repeat split; lia].
    rewrite shr_no_shift.
    + destruct q; reflexivity.
    + rewrite fexp_eq. destruct q as [| p | p]; simpl Zdigits2; [lia | | lia].
      assert (Zpos (digits2_pos p) <= 53) by (apply digits_le; lia). lia.
Qed.

Lemma round_spec s m e :
  let e1 := fexp (Zpos (digits2_pos m) + e) in
  let k := e1 - e in
  0 <= k ->
  exists q' m'' e'',
    binary_round_aux prec emax s (Zpos m) e loc_Exact = pack s m'' e''
    /\ (q' = Zpos m / 2 ^ k \/ q' = Zpos m / 2 ^ k + 1)
    /\ (q' = Zpos m / 2 ^ k + 1 -> 2 ^ k <= 2 * (Zpos m mod 2 ^ k))
    /\ (q' = Zpos m / 2 ^ k -> 2 * (Zpos m mod 2 ^ k) <= 2 ^ k)
    /\ ((m'' = q' /\ e'' = e1 /\ q' < 2 ^ 53)
        \/ (q' = 2 ^ 53 /\ m'' = 2 ^ 52 /\ e'' = e1 + 1)).
Proof.
  intros e1 k Hk.
  assert (He1 : -1074 <= e1) by (unfold e1; rewrite fexp_eq; lia).
  assert (Hd : Zpos (digits2_pos m) - k <= 53) by (unfold k, e1; rewrite fexp_eq; lia).
  unfold binary_round_aux. unfold shr_fexp at 1. simpl Zdigits2.
  fold e1. fold k. simpl shr_record_of_loc. rewrite shr_shift by assumption.
  replace (e + k) with e1 by (unfold k; lia).
  destruct (shr_iter (Z.to_nat k) (m := Zpos m) ltac:(lia)) as [Hm Hl].
  rewrite Z2Nat.id in Hm, Hl by assumption.
  rewrite Hm, Hl.
  assert (Hp : 0 < 2 ^ k) by (apply Z.pow_pos_nonneg; lia).
  pose proof (Z.mod_pos_bound (Zpos m) (2 ^ k) Hp) as Hrem.
  assert (Hq : 0 <= Zpos m / 2 ^ k < 2 ^ 53).
  { split; [apply Z.div_pos; lia |].
    apply Z.div_lt_upper_bound; [assumption |].
    destruct (digits_bounds m) as [_ Hhi].
    eapply Z.lt_le_trans; [exact Hhi |].
    rewrite <- Z.pow_add_r by lia. apply Z.pow_le_mono_r; lia. }
  pose proof (@rne_spec (Zpos m / 2 ^ k) (Z.to_nat k) (Zpos m mod 2 ^ k)) as Hr.
  rewrite Z2Nat.id in Hr by assumption. specialize (Hr Hrem). cbn zeta in Hr.
  set (q' := round_nearest_even (Zpos m / 2 ^ k)
               (loc_rem (Z.to_nat k) (Zpos m mod 2 ^ k))) in *.
  destruct Hr as (H1 & H2 & H3).
  destruct (@renormalize s q' e1 He1 ltac:(lia)) as (m'' & e'' & Hpack & Hcase).
  exists q', m'', e''. rewrite Hpack. auto.
Qed.

(** *** Order of canonical numbers *)

Lemma bounded_facts m e :
  bounded prec emax m e = true ->
  -1074 <= e <= 971
  /\ Zpos m < 2 ^ 53
  /\ (-1074 < e -> 2 ^ 52 <= Zpos m).
Proof.
  unfold bounded, canonical_mantissa. rewrite fexp_eq.
  intros H. apply andb_true_iff in H as [Hc He].
  apply Z.eqb_eq in Hc. apply Z.leb_le in He. change (emax - prec) with 971 in He.
  destruct (digits_bounds m) as [Hlo Hhi].
  assert (Hd : Zpos (digits2_pos m) <= 53) by lia.
  repeat split; try lia.
  - eapply Z.lt_le_trans; [exact Hhi |]. apply Z.pow_le_mono_r; lia.
  - intros Hn. assert (Zpos (digits2_pos m) = 53) as E by lia.
    rewrite E in Hlo. exact Hlo.
Qed.

Lemma val_lt m1 e1 m2 e2 :
  bounded prec emax m1 e1 = true -> bounded prec emax m2 e2 = true ->
  e1 < e2 -> val m1 e1 < val m2 e2.
Proof.
  intros H1 H2 He. unfold val.
  destruct (bounded_facts _ _ H1) as (He1 & Hm1 & _).
  destruct (bounded_facts _ _ H2) as (He2 & _ & Hm2).
  specialize (Hm2 ltac:(lia)).
  assert (Hp : 0 < 2 ^ (e1 + 1074)) by (apply Z.pow_pos_nonneg; lia).
  assert (Hq : 2 * 2 ^ (e1 + 1074) <= 2 ^ (e2 + 1074)).
  { rewrite <- Z.pow_succ_r by lia. apply Z.pow_le_mono_r; lia. }
  change (2 ^ 53) with 9007199254740992 in Hm1.
  change (2 ^ 52) with 4503599627370496 in Hm2.
  hide_pow. nia.
Qed.

Lemma compare_canonical m1 e1 m2 e2 :
  bounded prec emax m1 e1 = true -> bounded prec emax m2 e2 = true ->
  SFcompare (finite false m1 e1) (finite false m2 e2)
  = Some (val m1 e1 ?= val m2 e2).
Proof.
  intros H1 H2. simpl. f_equal.
  destruct (Z.compare_spec e1 e2) as [-> | Hlt | Hgt].
  - unfold val. rewrite <- Zmult_compare_compat_r; [reflexivity |].
    destruct (bounded_facts _ _ H2) as (He2 & _).
    apply Z.lt_gt, Z.pow_pos_nonneg; lia.
  - symmetry. apply Z.compare_lt_iff. now apply val_lt.
  - symmetry. apply Z.compare_gt_iff. now apply val_lt.
Qed.

Lemma leb_canonical m1 e1 m2 e2 :
  bounded prec emax m1 e1 = true -> bounded prec emax m2 e2 = true ->
  SFleb (finite false m1 e1) (finite false m2 e2) = (val m1 e1 <=? val m2 e2).
Proof.
  intros H1 H2. unfold SFleb. rewrite compare_canonical by assumption.
  unfold Z.leb. destruct (_ ?= _); reflexivity.
Qed.

Lemma ltb_canonical m1 e1 m2 e2 :
  bounded prec emax m1 e1 = true -> bounded prec emax m2 e2 = true ->
  SFltb (finite false m1 e1) (finite false m2 e2) = (val m1 e1 <? val m2 e2).
Proof.
  intros H1 H2. unfold SFltb. rewrite compare_canonical by assumption.
  unfold Z.ltb. destruct (_ ?= _); reflexivity.
Qed.

(** *** Signs *)

Lemma leb_zero x : SFleb (S754_zero false) x = nonnegSF x.
Proof. destruct x as [s | s | | s m e]; try destruct s; reflexivity. Qed.

Lemma pack_nonneg m e : 0 <= m -> nonnegSF (pack false m e) = true.
Proof.
  destruct m as [| p | p]; simpl; intros H; [reflexivity | | lia].
  destruct (e <=? _); reflexivity.
Qed.

Lemma round_aux_nonneg m e :
  nonnegSF (binary_round_aux prec emax false (Zpos m) e loc_Exact) = true.
Proof.
  destruct (Z_le_gt_dec 0 (fexp (Zpos (digits2_pos m) + e) - e)) as [Hk | Hk].
  - destruct (@round_spec false m e Hk) as (q' & m'' & e'' & -> & Hq & _ & _ & Hc).
    apply pack_nonneg.
    assert (0 <= Zpos m / 2 ^ (fexp (Zpos (digits2_pos m) + e) - e))
      by (apply Z.div_pos; [lia | apply Z.pow_pos_nonneg; lia]).
    destruct Hc as [(-> & _) | (_ & -> & _)]; lia.
  - unfold binary_round_aux, shr_fexp. simpl Zdigits2. simpl shr_record_of_loc.
    rewrite shr_no_shift by lia. cbn [shr_m round_nearest_even loc_of_shr_record].
    unfold shr_fexp. cbn [Zdigits2 shr_record_of_loc].
    rewrite shr_no_shift by lia. cbn [shr_m].
    destruct (e <=? _); reflexivity.
Qed.

Lemma binary_round_nonneg m e : nonnegSF (binary_round prec emax false m e) = true.
Proof.
  unfold binary_round. destruct (shl_align _ _ _) as [mz ez]. apply round_aux_nonneg.
Qed.

Lemma normalize_nonneg z e :
  0 <= z -> nonnegSF (binary_normalize prec emax z e false) = true.
Proof.
  destruct z as [| p | p]; simpl; intros H; [reflexivity | | lia].
  apply binary_round_nonneg.
Qed.

(** Aligning a mantissa to a smaller exponent multiplies it by a power of
    two. *)
Lemma iter_xO m d : Zpos (Pos.iter xO m d) = Zpos m * 2 ^ Zpos d.
Proof.
  induction d as [| d IH] using Pos.peano_ind.
  - simpl. rewrite (Pos2Z.inj_xO m). change (2 ^ 1) with 2. lia.
  - rewrite Pos.iter_succ, (Pos2Z.inj_xO (Pos.iter xO m d)), IH.
    rewrite Pos2Z.inj_succ, Z.pow_succ_r by lia. lia.
Qed.

Lemma shl_align_val m e ez :
  ez <= e -> Zpos (fst (shl_align m e ez)) = Zpos m * 2 ^ (e - ez).
Proof.
  intros H. unfold shl_align.
  destruct (ez - e) as [| p | p] eqn:E.
  - replace (e - ez) with 0 by lia. simpl. lia.
  - lia.
  - simpl fst. rewrite iter_xO. f_equal. f_equal. lia.
Qed.

Lemma val_align m e ez :
  -1074 <= ez <= e ->
  val m e = Zpos (fst (shl_align m e ez)) * 2 ^ (ez + 1074).
Proof.
  intros H. rewrite shl_align_val by lia. unfold val.
  rewrite <- Z.mul_assoc, <- Z.pow_add_r by lia. f_equal. f_equal. lia.
Qed.

Lemma add_nonneg x y :
  nonnegSF x = true -> nonnegSF y = true -> nonnegSF (SF64add x y) = true.
Proof.
  destruct x as [sx | sx | | sx mx ex], y as [sy | sy | | sy my ey];
    try destruct sx; try destruct sy; simpl; try congruence; intros _ _.
  apply binary_round_nonneg.
Qed.

(** Subtracting a positive number from one that is not smaller. *)
Lemma sub_nonneg x ma ea :
  valid_binary x = true -> bounded prec emax ma ea = true ->
  nonnegSF x = true ->
  SFltb x (finite false ma ea) = false ->
  nonnegSF (SF64add x (SFopp (finite false ma ea))) = true.
Proof.
  intros Hx Ha Hn Hlt.
  destruct x as [sx | sx | | sx mx ex].
  - discriminate Hlt.
  - destruct sx; [discriminate Hn | reflexivity].
  - discriminate Hn.
  - destruct sx; [discriminate Hn |].
    cbn [valid_binary] in Hx.
    rewrite ltb_canonical in Hlt by assumption.
    apply Z.ltb_ge in Hlt.
    destruct (bounded_facts _ _ Hx) as (Hex & _).
    destruct (bounded_facts _ _ Ha) as (Hea & _).
    rewrite (@val_align mx ex (Z.min ex ea)), (@val_align ma ea (Z.min ex ea)) in Hlt by lia.
    unfold SF64add, SFopp, SFadd. cbn [negb cond_Zopp].
    apply normalize_nonneg.
    assert (0 < 2 ^ (Z.min ex ea + 1074)) by (apply Z.pow_pos_nonneg; lia).
    hide_pow. nia.
Qed.

(** *** The seed of a new account *)

Lemma below_one mr er :
  bounded prec emax mr er = true ->
  val mr er < val 4503599627370496 (-52) ->
  er <= -53.
Proof.
  intros Hb Hv. destruct (Z_le_gt_dec er (-53)) as [| Hgt]; [assumption | exfalso].
  destruct (bounded_facts _ _ Hb) as (He & Hm & Hn). specialize (Hn ltac:(lia)).
  unfold val in Hv.
  assert (0 < 2 ^ (-52 + 1074)) by (apply Z.pow_pos_nonneg; lia).
  assert (2 ^ (-52 + 1074) <= 2 ^ (er + 1074)) by (apply Z.pow_le_mono_r; lia).
  change (2 ^ 52) with 4503599627370496 in Hn.
  hide_pow. nia.
Qed.

Lemma pack_val m'' e'' q e1 :
  (m'' = q /\ e'' = e1 /\ q < 2 ^ 53) \/ (q = 2 ^ 53 /\ m'' = 2 ^ 52 /\ e'' = e1 + 1) ->
  -1074 <= e1 ->
  m'' * 2 ^ (e'' + 1074) = q * 2 ^ (e1 + 1074).
Proof.
  intros [(-> & -> & _) | (-> & -> & ->)] He; [reflexivity |].
  replace (e1 + 1 + 1074) with (Z.succ (e1 + 1074)) by lia.
  rewrite Z.pow_succ_r by lia. change (2 ^ 53) with (2 ^ 52 * 2). ring.
Qed.

(** The product of a number below one and 9000, rounded, is at most the
    largest binary64 number below 9000. *)
Lemma mul_9000 mr er :
  bounded prec emax mr er = true ->
  val mr er < val 4503599627370496 (-52) ->
  SF64mul (finite false mr er) c9000 = S754_zero false
  \/ exists my ey,
       SF64mul (finite false mr er) c9000 = finite false my ey
       /\ val my ey <= val 4947802324991999 (-39).
Proof.
  intros Hb Hlt.
  pose proof (below_one _ _ Hb Hlt) as Her.
  destruct (bounded_facts _ _ Hb) as (He & Hm & _).
  change (2 ^ 53) with 9007199254740992 in Hm.
  unfold SF64mul, c9000, SFmul. cbn [xorb].
  set (P := (mr * 4947802324992000)%positive).
  assert (HP : Zpos P = Zpos mr * 4947802324992000) by reflexivity.
  set (e := er + -39).
  assert (Hd1 : 52 < Zpos (digits2_pos P)).
  { apply digits_ge. change (2 ^ 52) with 4503599627370496. lia. }
  assert (Hd2 : Zpos (digits2_pos P) <= 106).
  { apply digits_le; [lia |]. change (2 ^ 106) with (9007199254740992 * 9007199254740992).
    nia. }
  pose proof (@round_spec false P e) as Hr. cbn zeta in Hr.
  set (e1 := fexp (Zpos (digits2_pos P) + e)) in *.
  assert (He1 : e <= e1 /\ -1074 <= e1 <= -39) by (unfold e1, e; rewrite fexp_eq; lia).
  destruct (Hr ltac:(lia)) as (q' & m'' & e'' & Hpack & Hq & Hup & Hdown & Hc).
  set (k := e1 - e) in *.
  assert (HK : 0 < 2 ^ k) by (apply Z.pow_pos_nonneg; lia).
  pose proof (Z.div_mod (Zpos P) (2 ^ k) ltac:(lia)) as Hdm.
  pose proof (Z.mod_pos_bound (Zpos P) (2 ^ k) HK) as Hrem.
  assert (Hq0 : 0 <= Zpos P / 2 ^ k) by (apply Z.div_pos; lia).
  assert (Hq53 : q' <= 2 ^ 53) by (destruct Hc as [(_ & _ & ?) | (-> & _)]; lia).
  change (2 ^ 53) with 9007199254740992 in Hq53.
  assert (Hbound : q' <= 4947802324991999 * 2 ^ (-39 - e1)).
  { destruct (Z.eq_dec e1 (-39)) as [E | NE].
    - rewrite E. change (2 ^ (-39 - -39)) with 1.
      assert (9007199254740992 <= 2 ^ k).
      { change 9007199254740992 with (2 ^ 53). apply Z.pow_le_mono_r; unfold k, e; lia. }
      set (K := 2 ^ k) in *. set (q := Zpos P / K) in *. set (rem := Zpos P mod K) in *.
      clearbody K q rem.
      destruct Hq as [-> | ->]; [clear Hup; specialize (Hdown eq_refl)
                                | clear Hdown; specialize (Hup eq_refl)]; nia.
    - assert (2 <= 2 ^ (-39 - e1)).
      { change 2 with (2 ^ 1) at 1. apply Z.pow_le_mono_r; lia. }
      hide_pow. lia. }
  rewrite Hpack.
  assert (Hval : m'' * 2 ^ (e'' + 1074) = q' * 2 ^ (e1 + 1074))
    by (apply pack_val; [assumption | lia]).
  assert (Hm'' : 0 <= m'') by (destruct Hc as [(-> & _) | (_ & -> & _)]; lia).
  assert (He'' : e'' <= e1 + 1) by (destruct Hc as [(_ & -> & _) | (_ & _ & ->)]; lia).
  destruct m'' as [| p | p]; [left; reflexivity | right | lia].
  exists p, e''. unfold pack.
  replace (e'' <=? emax - prec) with true
    by (symmetry; apply Z.leb_le; change (emax - prec) with 971; lia).
  split; [reflexivity |].
  unfold val. rewrite Hval.
  replace (-39 + 1074) with ((-39 - e1) + (e1 + 1074)) by lia.
  rewrite (Z.pow_add_r 2 (-39 - e1) (e1 + 1074)) by lia. rewrite Z.mul_assoc.
  apply Z.mul_le_mono_nonneg_r; [apply Z.pow_nonneg; lia | exact Hbound].
Qed.

Lemma shl_align_id m e e' : e <= e' -> shl_align m e e' = (m, e).
Proof.
  intros H. unfold shl_align. destruct (e' - e) eqn:E; try reflexivity. lia.
Qed.

(** Adding 1000 to a number that is at most the largest binary64 number
    below 9000 gives a number from 1000 to the largest one below 10000. *)
Lemma add_1000 my ey :
  bounded prec emax my ey = true ->
  val my ey <= val 4947802324991999 (-39) ->
  exists mz ez,
    SF64add c1000 (finite false my ey) = finite false mz ez
    /\ val 8796093022208000 (-43) <= val mz ez <= val 5497558138879999 (-39).
Proof.
  intros Hb Hy.
  destruct (bounded_facts _ _ Hb) as (Hey & _).
  unfold SF64add, c1000, SFadd. cbn [cond_Zopp].
  set (ez0 := Z.min (-43) ey).
  assert (Hez0 : -1074 <= ez0 <= -43 /\ ez0 <= ey) by (unfold ez0; lia).
  pose proof (@val_align 8796093022208000 (-43) ez0 ltac:(lia)) as HX.
  pose proof (@val_align my ey ez0 ltac:(lia)) as HY.
  set (X := fst (shl_align 8796093022208000 (-43) ez0)) in *.
  set (Y := fst (shl_align my ey ez0)) in *.
  change (Zpos X + Zpos Y) with (Zpos (X + Y)).
  unfold binary_normalize, binary_round.
  set (S := (X + Y)%positive).
  assert (HS : Zpos S = Zpos X + Zpos Y) by reflexivity.
  (* the exact sum, in units of [2 ^ ez0] *)
  set (W := 2 ^ (ez0 + 1074)) in *.
  assert (HW : 0 < W) by (apply Z.pow_pos_nonneg; lia).
  set (U := 2 ^ (-39 - ez0)).
  assert (HU : 0 < U) by (apply Z.pow_pos_nonneg; lia).
  assert (HUW : 2 ^ 1035 = U * W).
  { unfold U, W. rewrite <- Z.pow_add_r by lia. f_equal. lia. }
  assert (Hlo : 549755813888000 * U <= Zpos S).
  { unfold val in HX. change (2 ^ (-43 + 1074)) with (2 ^ 1031) in HX.
    assert (8796093022208000 * 2 ^ 1031 = 549755813888000 * 2 ^ 1035) by reflexivity.
    clearbody X Y S W U. nia. }
  assert (Hhi : Zpos S <= 5497558138879999 * U).
  { unfold val in HX, HY, Hy.
    change (2 ^ (-43 + 1074)) with (2 ^ 1031) in HX.
    change (2 ^ (-39 + 1074)) with (2 ^ 1035) in Hy.
    assert (8796093022208000 * 2 ^ 1031 = 549755813888000 * 2 ^ 1035) by reflexivity.
    set (V := Zpos my * 2 ^ (ey + 1074)) in *.
    clearbody X Y S W U V. nia. }
  assert (Hd1 : 9 - ez0 < Zpos (digits2_pos S)).
  { apply digits_ge. replace (9 - ez0) with (48 + (-39 - ez0)) by lia.
    rewrite Z.pow_add_r by lia. fold U. change (2 ^ 48) with 281474976710656. lia. }
  assert (Hd2 : Zpos (digits2_pos S) <= 14 - ez0).
  { apply digits_le; [lia |]. replace (14 - ez0) with (53 + (-39 - ez0)) by lia.
    rewrite Z.pow_add_r by lia. fold U. change (2 ^ 53) with 9007199254740992. lia. }
  set (e1 := fexp (Zpos (digits2_pos S) + ez0)).
  assert (He1 : -43 <= e1 <= -39) by (unfold e1; rewrite fexp_eq; lia).
  rewrite shl_align_id by lia.
  pose proof (@round_spec false S ez0) as Hr. cbn zeta in Hr. fold e1 in Hr.
  destruct (Hr ltac:(lia)) as (q' & m'' & e'' & Hpack & Hq & Hup & Hdown & Hc).
  set (k := e1 - ez0) in *.
  assert (HK : 0 < 2 ^ k) by (apply Z.pow_pos_nonneg; lia).
  set (T := 2 ^ (-39 - e1)).
  assert (HT : 0 < T) by (apply Z.pow_pos_nonneg; lia).
  assert (HTK : U = T * 2 ^ k).
  { unfold U, T. rewrite <- Z.pow_add_r by lia. f_equal. unfold k. lia. }
  pose proof (Z.div_mod (Zpos S) (2 ^ k) ltac:(lia)) as Hdm.
  pose proof (Z.mod_pos_bound (Zpos S) (2 ^ k) HK) as Hrem.
  assert (Hqlo : 549755813888000 * T <= q').
  { assert (549755813888000 * T <= Zpos S / 2 ^ k).
    { apply Z.div_le_lower_bound; [assumption |]. rewrite HTK in Hlo. lia. }
    destruct Hq as [-> | ->]; lia. }
  assert (Hqhi : q' <= 5497558138879999 * T).
  { rewrite HTK in Hhi.
    set (K := 2 ^ k) in *. set (q := Zpos S / K) in *. set (rem := Zpos S mod K) in *.
    clearbody K q rem T.
    destruct Hq as [-> | ->]; [clear Hup; specialize (Hdown eq_refl)
                              | clear Hdown; specialize (Hup eq_refl)]; nia. }
  assert (Hval : m'' * 2 ^ (e'' + 1074) = q' * 2 ^ (e1 + 1074))
    by (apply pack_val; [assumption | lia]).
  assert (HW1 : 0 < 2 ^ (e1 + 1074)) by (apply Z.pow_pos_nonneg; lia).
  assert (HTW : 2 ^ 1035 = T * 2 ^ (e1 + 1074)).
  { unfold T. rewrite <- Z.pow_add_r by lia. f_equal. lia. }
  assert (He'' : e'' <= e1 + 1) by (destruct Hc as [(_ & -> & _) | (_ & _ & ->)]; lia).
  assert (Hm'' : 0 < m'').
  { destruct Hc as [(-> & _) | (_ & -> & _)]; [| reflexivity]. lia. }
  rewrite Hpack. destruct m'' as [| p | p]; [lia | | lia].
  exists p, e''. unfold pack.
  replace (e'' <=? emax - prec) with true
    by (symmetry; apply Z.leb_le; change (emax - prec) with 971; lia).
  split; [reflexivity |].
  unfold val. rewrite Hval.
  change (2 ^ (-43 + 1074)) with (2 ^ 1031). change (2 ^ (-39 + 1074)) with (2 ^ 1035).
  assert (8796093022208000 * 2 ^ 1031 = 549755813888000 * 2 ^ 1035) as -> by reflexivity.
  rewrite HTW.
  set (W1 := 2 ^ (e1 + 1074)) in *. clearbody W1 T. nia.
Qed.

(** *** The primitive operations *)

Lemma Prim2SF_consts :
  Prim2SF 0 = S754_zero false /\ Prim2SF 1 = one_SF /\ Prim2SF 1000 = c1000
  /\ Prim2SF 9000 = c9000 /\ Prim2SF 10000 = c10000 /\ Prim2SF 100000 = c100000.
Proof. vm_compute. repeat split. Qed.

Lemma nonneg_SF x : Number.nonneg x <-> nonnegSF (Prim2SF x) = true.
Proof.
  unfold Number.nonneg, Number.le. rewrite FloatAxioms.leb_spec.
  destruct Prim2SF_consts as (-> & _). rewrite leb_zero. reflexivity.
Qed.

Lemma add_nonneg_num x y :
  Number.nonneg x -> Number.nonneg y -> Number.nonneg (Number.add x y).
Proof.
  rewrite !nonneg_SF. unfold Number.add. rewrite FloatAxioms.add_spec. apply add_nonneg.
Qed.

(** An amount that passes the checks of [transferBody] is a positive
    finite number. *)
Lemma checked_amount a :
  Number.isNaN a = false -> Number.le a 0 = false -> Number.gt a 100000 = false ->
  exists ma ea, Prim2SF a = finite false ma ea.
Proof.
  unfold Number.isNaN, Number.le, Number.gt.
  rewrite FloatAxioms.eqb_spec, FloatAxioms.leb_spec, FloatAxioms.ltb_spec.
  destruct Prim2SF_consts as (-> & _ & _ & _ & _ & ->).
  destruct (Prim2SF a) as [s | s | | s m e]; try destruct s; simpl; try discriminate.
  intros _ _ _. eauto.
Qed.

Lemma sub_nonneg_num x a :
  Number.isNaN a = false -> Number.le a 0 = false -> Number.gt a 100000 = false ->
  Number.nonneg x -> Number.lt x a = false ->
  Number.nonneg (Number.add x (Number.neg a)).
Proof.
  intros H1 H2 H3 Hx Hlt.
  destruct (checked_amount H1 H2 H3) as (ma & ea & Ha).
  apply nonneg_SF in Hx. apply nonneg_SF.
  unfold Number.lt in Hlt. rewrite FloatAxioms.ltb_spec, Ha in Hlt.
  unfold Number.add, Number.neg. rewrite FloatAxioms.add_spec, FloatAxioms.opp_spec, Ha.
  pose proof (Prim2SF_valid a) as Hva. rewrite Ha in Hva.
  apply sub_nonneg; auto using Prim2SF_valid.
Qed.

Lemma amount_nonneg a :
  Number.isNaN a = false -> Number.le a 0 = false -> Number.gt a 100000 = false ->
  Number.nonneg a.
Proof.
  intros H1 H2 H3. destruct (checked_amount H1 H2 H3) as (ma & ea & Ha).
  apply nonneg_SF. now rewrite Ha.
Qed.

(** The seed [1000 + r * 9000] of a new account, for [r] from 0 up to but
    not including 1. *)
Lemma initial_balance_range r :
  Number.le 0 r = true -> Number.lt r 1 = true ->
  Number.le 1000 (initial_balance r) = true
  /\ Number.lt (initial_balance r) 10000 = true
  /\ Number.lt 0 (initial_balance r) = true.
Proof.
  unfold Number.le, Number.lt, initial_balance, Number.add, Number.mul.
  rewrite !FloatAxioms.leb_spec, !FloatAxioms.ltb_spec.
  pose proof (Prim2SF_valid r) as Hvr.
  pose proof (Prim2SF_valid (r * 9000)) as Hvy.
  pose proof (Prim2SF_valid (1000 + r * 9000)) as Hvz.
  rewrite FloatAxioms.add_spec in Hvz |- *. rewrite FloatAxioms.mul_spec in Hvy, Hvz |- *.
  destruct Prim2SF_consts as (E0 & E1 & E2 & E3 & E4 & _).
  rewrite ?E0, ?E1, ?E2, ?E3, ?E4 in *. clear E0 E1 E2 E3 E4.
  destruct (Prim2SF r) as [s | s | | s mr er].
  - intros _ _. destruct s; vm_compute; repeat split.
  - destruct s; discriminate.
  - discriminate.
  - destruct s; [discriminate |]. intros _ Hlt.
    cbn [valid_binary] in Hvr. unfold one_SF in Hlt.
    rewrite ltb_canonical in Hlt by (assumption || reflexivity).
    apply Z.ltb_lt in Hlt.
    destruct (@mul_9000 _ _ Hvr Hlt) as [Hy | (my & ey & Hy & Hyv)]; rewrite Hy in *.
    + vm_compute. repeat split.
    + cbn [valid_binary] in Hvy.
      destruct (@add_1000 _ _ Hvy Hyv) as (mz & ez & Hz & Hlo & Hhi).
      rewrite Hz in *. cbn [valid_binary] in Hvz. unfold c1000, c10000.
      rewrite leb_canonical, ltb_canonical by (assumption || reflexivity).
      repeat split.
      * now apply Z.leb_le.
      * apply Z.ltb_lt. eapply Z.le_lt_trans; [exact Hhi |]. reflexivity.
Qed.

End Rounding.

(** ** Balances stay at or above zero *)

Lemma In_updateOne_first {A} (p : A -> bool) (f : A -> A) y l :
  In y (updateOne p f l) -> In y l \/ exists x, findOne p l = Some x /\ y = f x.
Proof.
  unfold findOne. induction l as [| x l IH]; simpl; [tauto |].
  destruct (p x) eqn:E; simpl.
  - intros [<- | H]; [right; exists x; auto | auto].
  - intros [<- | H]; [auto |].
    destruct (IH H) as [H' | (z & Hz & ->)]; [auto |].
    right; exists z; auto.
Qed.

Lemma valid_amount body :
  valid body ->
  Number.isNaN (body_amount body) = false
  /\ Number.le (body_amount body) 0 = false
  /\ Number.gt (body_amount body) 100000 = false.
Proof.
  unfold valid, transferBody.
  destruct (check_to body ++ check_amount body ++ check_description body) eqn:E;
    [intros _ | discriminate].
  apply app_eq_nil in E as [_ E]. apply app_eq_nil in E as [E _].
  unfold check_amount in E.
  destruct (Number.isNaN (body_amount body)); [discriminate |].
  apply app_eq_nil in E as [E1 E2].
  destruct (Number.le (body_amount body) 0); [discriminate |].
  destruct (Number.gt (body_amount body) 100000); [discriminate |].
  auto.
Qed.

Lemma moved_nonneg uid body sender l :
  valid body ->
  findOne (byUserId uid) l = Some sender ->
  Number.lt (balance sender) (body_amount body) = false ->
  (forall a, In a l -> Number.nonneg (balance a)) ->
  forall a, In a (moved uid body l) -> Number.nonneg (balance a).
Proof.
  intros Hv Hs Hlt Hl.
  destruct (valid_amount Hv) as (H1 & H2 & H3).
  assert (Hdebit : forall a,
             In a (updateOne (byUserId uid) (inc_balance (Number.neg (body_amount body))) l) ->
             Number.nonneg (balance a)).
  { intros a Hin. apply In_updateOne_first in Hin as [Hin | (x & Hx & ->)]; [auto |].
    rewrite Hs in Hx. injection Hx as <-. simpl.
    apply Rounding.sub_nonneg_num; auto.
    apply Hl. now apply findOne_In in Hs. }
  intros a Hin. unfold moved in Hin.
  apply In_updateOne_first in Hin as [Hin | (x & Hx & ->)]; [auto |].
  simpl. apply Rounding.add_nonneg_num.
  - apply Hdebit. now apply findOne_In in Hx.
  - now apply Rounding.amount_nonneg.
Qed.

Lemma seed_nonneg env : random_ok env -> Number.nonneg (initial_balance (random env)).
Proof.
  intros [H0 H1]. destruct (@Rounding.initial_balance_range _ H0 H1) as (Hlo & _ & _).
  apply Rounding.nonneg_SF.
  unfold Number.le in Hlo. rewrite FloatAxioms.leb_spec in Hlo.
  destruct Rounding.Prim2SF_consts as (_ & _ & E & _). rewrite E in Hlo.
  destruct (Prim2SF (initial_balance (random env))) as [s | s | | s m e];
    try destruct s; try discriminate; reflexivity.
Qed.

Lemma serve_nonneg env rq d :
  random_ok env -> all_nonneg d -> all_nonneg (serve env rq d).
Proof.
  unfold all_nonneg. intros Hr Hd a.
  destruct (serve_writes env rq d)
    as [(-> & _) | [(-> & _) | (uid & body & s & r & _ & Hv & _ & Hs & Hlt & _ & -> & _)]].
  - auto.
  - rewrite in_app_iff. simpl. intros [Hin | [<- | []]]; [auto |].
    simpl. now apply seed_nonneg.
  - eapply moved_nonneg; eauto.
Qed.



(** No balance is negative in any store the system can reach. *)
Lemma reachable_nonneg d : reachable d -> all_nonneg d.
Proof.
  induction 1 as [| env rq d Hd IH Hr].
  - intros a [].
  - now apply serve_nonneg.
Qed.


(** ** The seed of a new account *)

Lemma signup_accounts env body d a :
  In a (Accounts (serve env (Signup body) d)) ->
  In a (Accounts d) \/ a = opened_account env.
Proof.
  destruct (serve_writes env (Signup body) d)
    as [(-> & _) | [(-> & _) | (uid & b & s & r & E & _)]]; [auto | | discriminate E].
  rewrite in_app_iff. simpl. intuition.
Qed.

Lemma signup_opens env body d :
  (forall n, faulty env n = false) ->
  signupBody (isEmail env) body = inr body ->
  findOne (byUsername (su_username body)) (Users d) = None ->
  Accounts (serve env (Signup body) d) = Accounts d ++ [opened_account env].
Proof.
  intros Hok Hv Hnew. simpl. unfold after. unfold_reads.
  rewrite Hv. cbn. rewrite Hok. cbn. rewrite Hnew. cbn. rewrite !Hok. cbn. reflexivity.
Qed.

(** C10. An account opened at sign-up holds [1000 + r * 9000], with [r]
    the number [Math.random()] returned, from 0 up to but not including 1;
    this amount is at least 1000 and strictly below 10000, so strictly
    positive; and it need not be a whole number of minor units (it is not for
    [r = 1/1024]).  Sign-up adds no other account, and adds this one when the
    request is valid, the name is new and no driver call throws. *)
Theorem signup_seed env body d :
  random_ok env ->
  (forall a, In a (Accounts (serve env (Signup body) d)) ->
             In a (Accounts d) \/ a = opened_account env)
  /\ balance (opened_account env) = Number.add 1000 (Number.mul (random env) 9000)
  /\ Number.le 1000 (balance (opened_account env)) = true
  /\ Number.lt (balance (opened_account env)) 10000 = true
  /\ Number.lt 0 (balance (opened_account env)) = true
  /\ ((forall n, faulty env n = false) ->
      signupBody (isEmail env) body = inr body ->
      findOne (byUsername (su_username body)) (Users d) = None ->
      Accounts (serve env (Signup body) d) = Accounts d ++ [opened_account env])
  /\ exists r,
       Number.le 0 r = true /\ Number.lt r 1 = true
       /\ whole_minor_units (initial_balance r) = false.
Proof.
  intros [H0 H1].
  destruct (@Rounding.initial_balance_range _ H0 H1) as (Hlo & Hhi & Hpos).
  split; [intros a; apply signup_accounts |].
  split; [reflexivity |].
  split; [exact Hlo |]. split; [exact Hhi |]. split; [exact Hpos |].
  split; [apply signup_opens |].
  exists 0.0009765625%float. vm_compute. repeat split.
Qed.

Lemma signup_seed_witness :
  Accounts (serve (Sample.env 0.5 "a" 1) (Signup (Sample.join "alice@example.org")) empty_db)
  = [mkAccount "a" 5500]
  /\ Number.le 1000 5500 = true /\ Number.lt 5500 10000 = true.
Proof.
  assert (Hr : random_ok (Sample.env 0.5 "a" 1)) by (split; reflexivity).
  destruct (@signup_seed (Sample.env 0.5 "a" 1) (Sample.join "alice@example.org") empty_db Hr)
    as (_ & _ & Hlo & Hhi & _ & Hopen & _).
  split; [| split; [exact Hlo | exact Hhi]].
  apply Hopen; reflexivity.
Defined.

(** ** Balances are binary64 numbers *)

(** C7 as stated fails.  A sign-up with [Math.random() = 1/1024] stores
    1008.7890625, which is not a whole number of minor units; and ten
    transfers of 0.1 between balances of 1000 and 2000 leave
    998.9999999999998 and 2000.999999999999, whose sum is not 3000, neither
    as rational numbers nor as JavaScript adds them. *)
Lemma minor_units_counterexample :
  reachable (serve (Sample.env 0.0009765625 "c" 1)
               (Signup (Sample.join "carol@example.org")) empty_db)
  /\ balance_of (serve (Sample.env 0.0009765625 "c" 1)
                   (Signup (Sample.join "carol@example.org")) empty_db) "c"
     = Some 1008.7890625%float
  /\ whole_minor_units 1008.7890625 = false
  /\ (let d := again 10 (Sample.env 0.5 "t" 1) "a" (Sample.pay "b" 0.1)
                 (Sample.bank 1000 2000) in
      balance_of d "a" = Some 998.9999999999998%float
      /\ balance_of d "b" = Some 2000.999999999999%float
      /\ List.length (Transactions d) = 10%nat
      /\ exact_sum 998.9999999999998 2000.999999999999 <> exact_sum 1000 2000
      /\ PrimFloat.eqb (Number.add 998.9999999999998 2000.999999999999) 3000 = false).
Proof.
  split.
  { apply reach_serve; [apply reach_empty | split; reflexivity]. }
  vm_compute. repeat split; discriminate.
Qed.

(** C7, amended. A balance is a JavaScript number, that is a binary64
    floating-point value, stored as computed: sign-up stores the binary64
    result of [1000 + r * 9000] and a transfer replaces the two balances by
    the binary64 sums of C1, with no rounding to minor units anywhere.  So a
    store the system can reach may hold a balance that is not a whole number
    of minor units, and a run of successful transfers between two accounts
    may change the sum of their balances. *)
Theorem balances_are_binary64 :
  (forall env body d a,
      In a (Accounts (serve env (Signup body) d)) ->
      In a (Accounts d)
      \/ balance a = Number.add 1000 (Number.mul (random env) 9000))
  /\ (exists d a,
        reachable d /\ In a (Accounts d) /\ whole_minor_units (balance a) = false)
  /\ (exists d n env uid body F T F' T',
        balance_of d uid = Some F
        /\ balance_of d (body_to body) = Some T
        /\ balance_of (again n env uid body d) uid = Some F'
        /\ balance_of (again n env uid body d) (body_to body) = Some T'
        /\ List.length (Transactions (again n env uid body d))
           = (List.length (Transactions d) + n)%nat
        /\ exact_sum F' T' <> exact_sum F T).
Proof.
  split; [| split].
  - intros env body d a Hin. apply signup_accounts in Hin as [Hin | ->]; auto.
  - exists (serve (Sample.env 0.0009765625 "c" 1)
              (Signup (Sample.join "carol@example.org")) empty_db),
           (mkAccount "c" 1008.7890625).
    split; [apply reach_serve; [apply reach_empty | split; reflexivity] |].
    split; [left |]; vm_compute; reflexivity.
  - exists (Sample.bank 1000 2000), 10%nat, (Sample.env 0.5 "t" 1), "a",
           (Sample.pay "b" 0.1), 1000%float, 2000%float,
           998.9999999999998%float, 2000.999999999999%float.
    vm_compute. repeat split; discriminate.
Qed.

(** ** Witnesses on a small town *)

Lemma town_founded : reachable Town.founded.
Proof.
  unfold Town.founded.
  repeat (apply reach_serve; [| split; reflexivity]). apply reach_empty.
Qed.

Lemma town_paid : reachable Town.paid.
Proof.
  unfold Town.paid. apply reach_serve; [apply town_founded | split; reflexivity].
Qed.

Lemma log_only_completed_witness :
  Transactions Town.paid
  = [mkTransaction "t1" "a" "b" 100 completed EmptyString 3]
  /\ all_completed Town.paid.
Proof.
  split; [vm_compute; reflexivity |].
  exact (log_only_completed town_paid).
Defined.


(** * Further properties of the routes *)

Ltac unfold_user :=
  unfold run, post_signin, get_profile, get_balance, post_signup, put_profile,
    User_findByIdAndUpdate, User_findOne, User_findById, User_create,
    Account_create, Account_findOne,
    try_catch, bind, ret, throw, ask, driver in *;
  cbn [store opened calls trace fst snd] in *.

(** ** Sign-in *)

Lemma signinBody_inr email body data : signinBody email body = inr data -> data = body.
Proof. unfold signinBody. destruct (_ ++ _); congruence. Qed.

(** X1. Sign-in never changes the store.  When it answers 200 there is a
    user with that e-mail whose stored hash matches the password, and the
    token is signed for that user's id.  A valid request for an e-mail nobody
    has and one with a wrong password are answered alike (401, same message)
    after the same single read. *)
Theorem signin_reveals_nothing compare env body :
  (forall d, after (run (post_signin compare body) env d) = d)
  /\ (forall d token pu,
        fst (fst (run (post_signin compare body) env d)) = Val (LoginSuccessful token pu) ->
        exists user,
          findOne (byUsername (si_username body)) (Users d) = Some user
          /\ compare (si_password body) (password user) = true
          /\ token = jwt_sign env (user_id user)
          /\ pu = public user)
  /\ (forall d1 d2 user,
        signinBody (isEmail env) body = inr body ->
        findOne (byUsername (si_username body)) (Users d1) = None ->
        findOne (byUsername (si_username body)) (Users d2) = Some user ->
        compare (si_password body) (password user) = false ->
        fst (fst (run (post_signin compare body) env d1))
        = fst (fst (run (post_signin compare body) env d2))
        /\ snd (run (post_signin compare body) env d1)
           = snd (run (post_signin compare body) env d2)).
Proof.
  split; [| split].
  - intros d. unfold after. unfold_user.
    destruct (signinBody (isEmail env) body); cbn -[findOne]; [reflexivity |].
    repeat branch; reflexivity.
  - intros d token pu. unfold_user.
    destruct (signinBody (isEmail env) body) as [issues | data] eqn:Hv; cbn -[findOne];
      [discriminate |].
    apply signinBody_inr in Hv as ->.
    destruct (faulty env 0); cbn -[findOne]; [discriminate |].
    destruct (findOne (byUsername (si_username body)) (Users d)) as [user |]; cbn -[findOne];
      [| discriminate].
    destruct (compare (si_password body) (password user)) eqn:Hc; cbn -[findOne]; [| discriminate].
    intros H. injection H as <- <-. exists user. auto.
  - intros d1 d2 user Hv H1 H2 Hc. unfold_user. rewrite Hv. cbn -[findOne].
    destruct (faulty env 0); cbn -[findOne]; [split; reflexivity |].
    rewrite H1, H2. cbn -[findOne]. rewrite Hc. split; reflexivity.
Qed.

(** ** Sign-up *)

Lemma signupBody_inr email body data : signupBody email body = inr data -> data = body.
Proof. unfold signupBody. destruct (_ ++ _); congruence. Qed.

(** X2. A sign-up that fails validation makes no driver call; a valid
    sign-up for an e-mail that is taken is answered 409 after one read.
    Neither writes anything. *)
Theorem signup_refused env body d :
  (forall issues,
      signupBody (isEmail env) body = inl issues ->
      run (post_signup body) env d = (Val (SignupValidationFailed issues), d, []))
  /\ (forall user,
        signupBody (isEmail env) body = inr body ->
        findOne (byUsername (su_username body)) (Users d) = Some user ->
        faulty env 0 = false ->
        run (post_signup body) env d
        = (Val UserAlreadyExists, d, [UserFindOne (su_username body)])).
Proof.
  split.
  - intros issues Hv. unfold_user. rewrite Hv. reflexivity.
  - intros user Hv Hu Hf. unfold_user. rewrite Hv. cbn -[findOne]. rewrite Hf. cbn -[findOne].
    rewrite Hu. reflexivity.
Qed.

Lemma signup_refused_witness :
  run (post_signup (Sample.join "alice@example.org")) (Sample.env 0.5 "c" 1)
      (Sample.bank 1000 500)
  = (Val UserAlreadyExists, Sample.bank 1000 500, [UserFindOne "alice@example.org"]).
Proof.
  apply (proj2 (signup_refused (Sample.env 0.5 "c" 1) (Sample.join "alice@example.org")
                  (Sample.bank 1000 500)) Sample.alice); reflexivity.
Defined.

Lemma findOne_app_none {A} (p : A -> bool) l x :
  findOne p l = None -> findOne p (l ++ [x]) = if p x then Some x else None.
Proof.
  unfold findOne. induction l as [| y l IH]; simpl; [reflexivity |].
  destruct (p y); [discriminate | exact IH].
Qed.

(** The user a sign-up creates. *)
Lemma created_user_found env body d :
  findOne (byUsername (su_username body)) (Users d) = None ->
  findOne (byUsername (su_username body))
    (Users d ++ [mkUser (newId env) (su_username body) (bcrypt_hash env (su_password body))
                        (su_firstName body) (su_lastName body)])
  = Some (mkUser (newId env) (su_username body) (bcrypt_hash env (su_password body))
                 (su_firstName body) (su_lastName body)).
Proof.
  intros H. rewrite findOne_app_none by assumption.
  unfold byUsername. simpl. now rewrite String.eqb_refl.
Qed.

(** X3. Sign-up is not one unit of work.  When the user document is
    written and [Account.create] then throws, the answer is 500 but the user
    stays in the store without an account.  From then on a new sign-up with
    the same e-mail is answered 409, the balance route answers 404 for that
    user, and the profile route shows a balance of 0. *)
Theorem signup_not_atomic env body d :
  signupBody (isEmail env) body = inr body ->
  findOne (byUsername (su_username body)) (Users d) = None ->
  faulty env 0 = false -> faulty env 1 = false -> faulty env 2 = true ->
  let u := mkUser (newId env) (su_username body) (bcrypt_hash env (su_password body))
                  (su_firstName body) (su_lastName body) in
  let d' := mkDb (Users d ++ [u]) (Accounts d) (Transactions d) in
  run (post_signup body) env d
  = (Val SignupInternalError, d',
     [UserFindOne (su_username body); UserCreate (newId env);
      AccountCreate (newId env) (initial_balance (random env))])
  /\ (forall env',
        isEmail env' = isEmail env -> faulty env' 0 = false ->
        fst (fst (run (post_signup body) env' d')) = Val UserAlreadyExists)
  /\ (forall env',
        findOne (byUserId (newId env)) (Accounts d) = None ->
        findOne (byId (newId env)) (Users d) = None ->
        faulty env' 0 = false -> faulty env' 1 = false ->
        fst (fst (run (get_balance (newId env)) env' d')) = Val BalanceAccountNotFound
        /\ fst (fst (run (get_profile (newId env)) env' d')) = Val (ProfileOk (public u) 0)).
Proof.
  intros Hv Hnew H0 H1 H2. cbn zeta. split; [| split].
  - unfold_user. rewrite Hv. cbn -[findOne]. rewrite H0. cbn -[findOne]. rewrite Hnew. cbn -[findOne].
    rewrite H1. cbn -[findOne]. rewrite H2. reflexivity.
  - intros env' He Hf. unfold_user. rewrite He, Hv. cbn -[findOne]. rewrite Hf. cbn -[findOne].
    rewrite created_user_found by assumption. reflexivity.
  - intros env' Ha Hu Hf0 Hf1. split.
    + unfold_user. rewrite Hf0. cbn -[findOne]. rewrite Ha. reflexivity.
    + unfold_user. rewrite Hf0. cbn -[findOne].
      rewrite findOne_app_none by assumption.
      unfold byId. simpl. rewrite String.eqb_refl. cbn -[findOne]. rewrite Hf1. cbn -[findOne].
      rewrite Ha. reflexivity.
Qed.

Lemma signup_not_atomic_witness :
  run (post_signup (Sample.join "carol@example.org"))
      (mkEnv (fun n => Nat.eqb n 2) 0.5 1 "c" (fun _ => true) (fun s => s) (fun s => s)
             (fun x => x))
      (Sample.bank 1000 500)
  = (Val SignupInternalError,
     mkDb [Sample.alice; Sample.bob; mkUser "c" "carol@example.org" "secret1" "New" "User"]
          [mkAccount "a" 1000; mkAccount "b" 500] [],
     [UserFindOne "carol@example.org"; UserCreate "c"; AccountCreate "c" 5500]).
Proof.
  apply (@signup_not_atomic
           (mkEnv (fun n => Nat.eqb n 2) 0.5 1 "c" (fun _ => true) (fun s => s) (fun s => s)
                  (fun x => x))
           (Sample.join "carol@example.org") (Sample.bank 1000 500));
    reflexivity.
Defined.

(** X4. After a sign-up that went through, the new user can sign in with
    the same e-mail and password (given that [bcrypt.compare] accepts a
    password against its own hash), and, when the new [_id] had no account
    before, the balance route reports the seed. *)
Theorem signup_then_use env body d :
  signupBody (isEmail env) body = inr body ->
  findOne (byUsername (su_username body)) (Users d) = None ->
  (forall n, faulty env n = false) ->
  let u := mkUser (newId env) (su_username body) (bcrypt_hash env (su_password body))
                  (su_firstName body) (su_lastName body) in
  let d' := serve env (Signup body) d in
  run (post_signup body) env d
  = (Val (UserCreated (jwt_sign env (newId env)) (public u)), d',
     [UserFindOne (su_username body); UserCreate (newId env);
      AccountCreate (newId env) (initial_balance (random env))])
  /\ (forall compare env',
        compare (su_password body) (bcrypt_hash env (su_password body)) = true ->
        isEmail env' = isEmail env -> faulty env' 0 = false ->
        run (post_signin compare (mkSigninBody (su_username body) (su_password body))) env' d'
        = (Val (LoginSuccessful (jwt_sign env' (newId env)) (public u)), d',
           [UserFindOne (su_username body)]))
  /\ (forall env',
        findOne (byUserId (newId env)) (Accounts d) = None ->
        faulty env' 0 = false ->
        run (get_balance (newId env)) env' d'
        = (Val (BalanceOk (toFixed2 env' (initial_balance (random env))) (newId env)), d',
           [AccountFindOne (newId env)])).
Proof.
  intros Hv Hnew Hok. cbn zeta.
  assert (Hrun : run (post_signup body) env d
                 = (Val (UserCreated (jwt_sign env (newId env))
                           (public (mkUser (newId env) (su_username body)
                                      (bcrypt_hash env (su_password body))
                                      (su_firstName body) (su_lastName body)))),
                    mkDb (Users d ++ [mkUser (newId env) (su_username body)
                                        (bcrypt_hash env (su_password body))
                                        (su_firstName body) (su_lastName body)])
                         (Accounts d ++ [opened_account env]) (Transactions d),
                    [UserFindOne (su_username body); UserCreate (newId env);
                     AccountCreate (newId env) (initial_balance (random env))])).
  { unfold_user. rewrite Hv. cbn -[findOne]. rewrite Hok. cbn -[findOne]. rewrite Hnew. cbn -[findOne].
    rewrite !Hok. cbn -[findOne]. reflexivity. }
  assert (Hd' : serve env (Signup body) d
                = mkDb (Users d ++ [mkUser (newId env) (su_username body)
                                      (bcrypt_hash env (su_password body))
                                      (su_firstName body) (su_lastName body)])
                       (Accounts d ++ [opened_account env]) (Transactions d)).
  { simpl. unfold after. rewrite Hrun. reflexivity. }
  rewrite Hd'. split; [exact Hrun | split].
  - intros compare env' Hc He Hf. unfold_user.
    assert (Hs : signinBody (isEmail env')
                   (mkSigninBody (su_username body) (su_password body))
                 = inr (mkSigninBody (su_username body) (su_password body))).
    { unfold signinBody, signupBody in *. rewrite He. simpl.
      destruct (isEmail env (su_username body)); simpl in *.
      - destruct (String.length (su_password body)) as [| n]; [| reflexivity].
        exfalso. simpl in Hv.
        destruct (_ ++ _ ++ _ ++ _ ++ [_]) eqn:E; [| discriminate Hv].
        repeat (apply app_eq_nil in E as [_ E]). discriminate E.
      - discriminate Hv. }
    rewrite Hs. cbn -[findOne]. rewrite Hf. cbn -[findOne].
    rewrite created_user_found by assumption. cbn -[findOne]. rewrite Hc. reflexivity.
  - intros env' Ha Hf. unfold_user. rewrite Hf. cbn -[findOne].
    rewrite findOne_app_none by assumption.
    unfold byUserId, opened_account. simpl. rewrite String.eqb_refl. reflexivity.
Qed.

Lemma signup_then_use_witness :
  run (post_signin (fun p h => String.eqb p h) (mkSigninBody "carol@example.org" "secret1"))
      (Sample.env 0.25 "x" 2)
      (serve (Sample.env 0.5 "c" 1) (Signup (Sample.join "carol@example.org")) empty_db)
  = (Val (LoginSuccessful "c" (mkPublicUser "c" "carol@example.org" "New" "User")),
     serve (Sample.env 0.5 "c" 1) (Signup (Sample.join "carol@example.org")) empty_db,
     [UserFindOne "carol@example.org"]).
Proof.
  apply (proj1 (proj2 (@signup_then_use (Sample.env 0.5 "c" 1)
                         (Sample.join "carol@example.org") empty_db
                         eq_refl eq_refl (fun _ => eq_refl)))
           (fun p h => String.eqb p h) (Sample.env 0.25 "x" 2));
    reflexivity.
Defined.

(** ** Updating a profile and searching *)

Lemma map_updateOne {A B} (p : A -> bool) (f : A -> A) (g : A -> B) l :
  (forall x, g (f x) = g x) -> map g (updateOne p f l) = map g l.
Proof.
  intros Hg. induction l as [| x l IH]; simpl; [reflexivity |].
  destruct (p x); simpl; [now rewrite Hg | now rewrite IH].
Qed.

Lemma updateOne_none {A} (p : A -> bool) (f : A -> A) l :
  findOne p l = None -> updateOne p f l = l.
Proof.
  unfold findOne. induction l as [| x l IH]; simpl; [reflexivity |].
  destruct (p x); [discriminate | intros H; now rewrite IH].
Qed.

Lemma updateOne_keeps {A} (p : A -> bool) (f : A -> A) l x :
  In x l -> p x = false -> In x (updateOne p f l).
Proof.
  induction l as [| y l IH]; simpl; [tauto |].
  intros [-> | Hin] Hp.
  - rewrite Hp. now left.
  - destruct (p y); simpl; auto.
Qed.

(** X5. A profile update touches user documents only, keeps every
    user's [_id] and e-mail and the order of the collection, and leaves every
    user with another [_id] as it was.  For an [_id] nobody has, and for a
    body that fails validation, the store is unchanged; the latter makes no
    driver call. *)
Theorem profile_update_scope env uid body d :
  let d' := after (run (put_profile uid body) env d) in
  Accounts d' = Accounts d
  /\ Transactions d' = Transactions d
  /\ map user_id (Users d') = map user_id (Users d)
  /\ map username (Users d') = map username (Users d)
  /\ (forall u, In u (Users d) -> user_id u <> uid -> In u (Users d'))
  /\ (findOne (byId uid) (Users d) = None -> d' = d)
  /\ (updateBody body = false ->
      run (put_profile uid body) env d = (Val ProfileValidationFailed, d, [])).
Proof.
  cbn zeta. unfold after. unfold_user. destruct d as [us acs txs]. cbn [Users Accounts Transactions].
  destruct (updateBody body); cbn -[findOne].
  - destruct (faulty env 0); cbn -[findOne].
    + repeat split; auto; discriminate.
    + repeat split.
      * now apply map_updateOne.
      * now apply map_updateOne.
      * intros u Hin Hne. apply updateOne_keeps; [assumption |].
        unfold byId. now apply String.eqb_neq.
      * intros H. now rewrite updateOne_none.
      * discriminate.
  - repeat split; auto.
Qed.

(** X6. The search route answers with an empty list, whatever the store,
    when the filter is absent or shorter than two characters.  Whenever it
    answers 200 it lists at most ten users, never the caller, each one an
    existing user whose first name, last name or e-mail matches the
    filter. *)
Theorem search_results matches throws uid qfilter d :
  (match qfilter with
   | Some f => (String.length f < 2)%nat
   | None => True
   end -> get_search matches throws uid qfilter d = SearchOk [])
  /\ forall hits,
       get_search matches throws uid qfilter d = SearchOk hits ->
       (List.length hits <= 10)%nat
       /\ forall h, In h hits ->
            sh_id h <> uid
            /\ exists u f,
                 In u (Users d) /\ h = hit u
                 /\ f = match qfilter with Some s => s | None => EmptyString end
                 /\ (matches f (firstName u) = true \/ matches f (lastName u) = true
                     \/ matches f (username u) = true).
Proof.
  unfold get_search. split.
  - intros H. destruct qfilter as [f |]; [| reflexivity].
    apply Nat.ltb_lt in H. now rewrite H.
  - intros hits.
    set (f := match qfilter with Some s => s | None => EmptyString end).
    destruct (String.length f <? 2)%nat.
    + intros H. injection H as <-. split; [simpl; lia | intros h []].
    + destruct throws; [discriminate |].
      set (found := firstn 10 (filter (search_query matches uid f) (Users d))).
      assert (Hlen : (List.length found <= 10)%nat) by apply firstn_le_length.
      assert (Hin : forall u, In u found ->
                              In u (filter (search_query matches uid f) (Users d)))
        by (intros u; apply In_firstn).
      clearbody found. intros H. injection H as <-.
      split; [now rewrite length_map |].
      intros h Hh. apply in_map_iff in Hh as (u & <- & Hu).
      apply Hin, filter_In in Hu as [Hu Hq].
      unfold search_query in Hq. apply andb_true_iff in Hq as [Hne Hm].
      apply negb_true_iff, String.eqb_neq in Hne.
      split; [exact Hne |]. exists u, f. repeat split; auto.
      apply orb_true_iff in Hm as [Hm | Hm]; [apply orb_true_iff in Hm as [Hm | Hm] |]; auto.
Qed.

(** ** The transfer route, further *)



(** X8. Every run of the transfer route starts by making its session and
    ends by ending it.  It answers 200 exactly when the last thing before the
    end of the session is the commit; and whenever it started a transaction
    and does not answer 200, it aborted that transaction itself.  A run that
    writes has made its three reads before the first write. *)
Theorem session_discipline env d uid body :
  let tr := snd (transfer env d uid body) in
  let r := fst (fst (transfer env d uid body)) in
  hd_error tr = Some StartSession
  /\ last tr StartSession = EndSession
  /\ ends_committed tr = succeeded r
  /\ (existsb is_start tr = true -> succeeded r = false -> existsb is_abort tr = true)
  /\ (existsb is_write tr = true ->
      exists rest,
        tr = [StartSession; StartTransaction; AccountFindOne uid;
              AccountFindOne (body_to body); UserFindById (body_to body);
              AccountUpdateOne uid (Number.neg (body_amount body))] ++ rest).
Proof.
  cbn zeta. unfold_handler.
  destruct (transferBody body) as [issues | data] eqn:Hv.
  - cbn. repeat split; intros; discriminate.
  - apply transferBody_inr in Hv as ->.
    repeat branch; cbn; repeat split; intros; try discriminate; try reflexivity;
      eexists; reflexivity.
Qed.

(** ** The log *)





Lemma length_filter_app {A} (p : A -> bool) l x :
  List.length (filter p (l ++ [x]))
  = (List.length (filter p l) + if p x then 1 else 0)%nat.
Proof.
  rewrite filter_app, length_app. simpl. destruct (p x); reflexivity.
Qed.

(** X10. A transfer that is answered 200 raises by one the number of
    records the history route counts for the sender and for the recipient,
    and leaves every other user's count as it was; a transfer that is not
    answered 200 leaves every count as it was. *)
Theorem transfer_counts env d uid body u :
  let d' := after (transfer env d uid body) in
  if succeeded (fst (fst (transfer env d uid body))) then
    count_for u d'
    = count_for u d + (if String.eqb u uid || String.eqb u (body_to body) then 1 else 0)
  else count_for u d' = count_for u d.
Proof.
  cbn zeta. unfold after.
  destruct (transfer env d uid body) as [[r d'] tr] eqn:E. cbn [fst snd].
  destruct (succeeded r) eqn:Hs.
  - destruct (transfer_succeeds _ _ _ _ E Hs) as (_ & _ & _ & _ & _ & _ & _ & _ & _ & ->).
    unfold count_for, matching. cbn [Transactions].
    rewrite length_filter_app. unfold involves, record_of. cbn [fromUserId toUserId].
    rewrite (String.eqb_sym uid u), (String.eqb_sym (body_to body) u).
    destruct (_ || _); lia.
  - now rewrite (transfer_fails _ _ _ _ E Hs).
Qed.

(** ** Nothing is deleted *)

Lemma serve_known env rq d u : known d u -> known (serve env rq d) u.
Proof.
  intros Hu. destruct rq as [body | uid body | uid | uid ql | uid qp ql | uid body]; simpl.
  - now apply post_signup_users.
  - destruct (post_transfer_writes env d uid body)
      as [H | (s & r & _ & _ & _ & _ & _ & H)]; unfold transfer in H; rewrite H; auto.
  - now rewrite get_balance_reads.
  - now rewrite get_statement_reads.
  - now rewrite get_transactions_reads.
  - now apply put_profile_users.
Qed.

(** X11. No request deletes anything: a user that can be found by
    [_id], and an account that can be found for a user, can still be found
    after any request, and the log after the request is the log before it
    followed by at most one new record. *)
Theorem nothing_deleted env rq d :
  (forall u, findOne (byId u) (Users d) <> None ->
             findOne (byId u) (Users (serve env rq d)) <> None)
  /\ (forall u, findOne (byUserId u) (Accounts d) <> None ->
                findOne (byUserId u) (Accounts (serve env rq d)) <> None)
  /\ (Transactions (serve env rq d) = Transactions d
      \/ exists tx, Transactions (serve env rq d) = Transactions d ++ [tx]).
Proof.
  split; [intros u; apply serve_known |].
  destruct (serve_writes env rq d)
    as [(-> & ->) | [(-> & -> & _) | (uid & body & s & r & _ & _ & _ & _ & _ & _ & -> & ->)]].
  - auto.
  - split; [| auto]. intros u. apply findOne_app_some.
  - split; [| eauto]. intros u Hu. unfold moved.
    apply findOne_updateOne_some; [reflexivity |].
    apply findOne_updateOne_some; [reflexivity | exact Hu].
Qed.

(** X12. In every store the system can reach, every account belongs to
    a user of the store, and the sender and the recipient of every record are
    users of the store. *)
Theorem references_resolve d :
  reachable d ->
  (forall a, In a (Accounts d) -> findOne (byId (userId a)) (Users d) <> None)
  /\ (forall tx, In tx (Transactions d) ->
        findOne (byId (fromUserId tx)) (Users d) <> None
        /\ findOne (byId (toUserId tx)) (Users d) <> None).
Proof.
  intros H. exact (reachable_refs H).
Qed.

Lemma references_resolve_witness :
  findOne (byId "a") (Users Town.paid) <> None.
Proof.
  refine (proj1 (@references_resolve Town.paid _) (mkAccount "a" 5400) _).
  - unfold Town.paid, Town.founded.
    repeat (apply reach_serve; [| split; reflexivity]). apply reach_empty.
  - left. vm_compute. reflexivity.
Defined.

(** ** The statement *)




(** ** Sending everything *)




(** ** Reading routes that fail *)

(** X15. When [(page - 1) * limit] is negative, for the page and the
    limit the history route works with (a page below 1 with a positive limit,
    or a page above 1 with a negative limit), the route answers 500 after its
    first query and reads nothing else, whatever the store holds. *)
Theorem history_bad_page env d uid qp ql :
  (or_default qp 1 - 1) * or_default ql 10 < 0 ->
  run (get_transactions uid qp ql) env d
  = (Val HistoryInternalError, d, [TransactionFind uid]).
Proof.
  intros H. apply Z.ltb_lt in H. unfold_reads.
  destruct (faulty env 0); cbn; [reflexivity |].
  rewrite H. reflexivity.
Qed.

Lemma history_bad_page_witness :
  run (get_transactions "b" (Some (-1)) None) (Sample.env 0.5 "x" 9) Town.paid
  = (Val HistoryInternalError, Town.paid, [TransactionFind "b"]).
Proof.
  apply history_bad_page. reflexivity.
Defined.

(** X16. A driver call that throws makes a reading route answer 500:
    the balance and profile routes when their first call throws, the
    statement and history routes when their first or their second call
    throws.  No reading route changes the store, whether it fails or not. *)
Theorem reads_fail_closed env d uid qp ql :
  (faulty env 0 = true ->
     run (get_balance uid) env d = (Val BalanceInternalError, d, [AccountFindOne uid])
     /\ run (get_profile uid) env d = (Val ProfileViewInternalError, d, [UserFindById uid]))
  /\ (faulty env 0 = true \/ faulty env 1 = true ->
        fst (fst (run (get_statement uid ql) env d)) = Val StatementInternalError
        /\ fst (fst (run (get_transactions uid qp ql) env d)) = Val HistoryInternalError)
  /\ after (run (get_balance uid) env d) = d
  /\ after (run (get_profile uid) env d) = d
  /\ after (run (get_statement uid ql) env d) = d
  /\ after (run (get_transactions uid qp ql) env d) = d.
Proof.
  split; [| split].
  - intros H. unfold_user. rewrite H. split; reflexivity.
  - intros H. unfold_reads.
    destruct (faulty env 0) eqn:E0; cbn; [split; reflexivity |].
    destruct H as [H | H]; [discriminate |]. rewrite H. cbn.
    split; [reflexivity |].
    destruct (_ <? 0); cbn; [reflexivity |]. rewrite H. reflexivity.
  - repeat split.
    + apply get_balance_reads.
    + unfold after. unfold_user. repeat branch; reflexivity.
    + apply get_statement_reads.
    + apply get_transactions_reads.
Qed.

Lemma reads_fail_closed_witness :
  run (get_balance "a") (mkEnv (fun _ => true) 0.5 7 "x" (fun _ => true) (fun s => s)
                           (fun s => s) (fun x => x)) Town.paid
  = (Val BalanceInternalError, Town.paid, [AccountFindOne "a"]).
Proof.
  refine (proj1 (proj1 (@reads_fail_closed _ Town.paid "a" None None) _)).
  reflexivity.
Defined.

(** ** The history page of the front end *)

Lemma history_pagination env d uid qp ql items p :
  fst (fst (run (get_transactions uid qp ql) env d)) = Val (HistoryOk items p) ->
  page p = or_default qp 1
  /\ limit p = or_default ql 10
  /\ total p = count_for uid d
  /\ pages p = ceil_div (count_for uid d) (or_default ql 10).
Proof.
  unfold count_for. unfold_reads.
  destruct (faulty env 0); cbn; [discriminate |].
  destruct (_ <? 0); cbn; [discriminate |].
  destruct (faulty env 1); cbn; [discriminate |].
  rewrite mapM_traverse. destruct (traverse _ _); cbn; [| discriminate].
  intros H. injection H as _ <-. repeat split.
Qed.

Lemma ceil_div_mono a a' b : 0 < b -> a <= a' -> ceil_div a b <= ceil_div a' b.
Proof.
  intros Hb H. unfold ceil_div.
  pose proof (Z.div_le_mono (- a') (- a) b Hb ltac:(lia)). lia.
Qed.

Lemma serve_count env rq d u : count_for u d <= count_for u (serve env rq d).
Proof.
  unfold count_for, matching.
  destruct (serve_writes env rq d)
    as [(_ & ->) | [(_ & -> & _) | (uid & body & s & r & _ & _ & _ & _ & _ & _ & _ & ->)]];
    try lia.
  rewrite length_filter_app. lia.
Qed.

(** X17. The history page of the front end always asks the history
    route for a page from 1 up to the last page of the user's history as the
    store then holds it (page 1 when there is nothing to show), with a page
    size of 10, whatever requests the system serves in the meantime and
    whether its fetches fail or not; so the skip the route computes from its
    request is never negative. *)
Theorem page_in_range uid s d :
  browsing uid s d ->
  1 <= currentPage s <= last_page uid d
  /\ or_default (Some (currentPage s)) 1 = currentPage s
  /\ or_default (Some 10) 10 = 10
  /\ 0 <= (or_default (Some (currentPage s)) 1 - 1) * or_default (Some 10) 10.
Proof.
  intros H.
  assert (Hinv : 1 <= currentPage s
                 /\ currentPage s <= Z.max 1 (totalPages s)
                 /\ totalPages s <= last_page uid d).
  { unfold last_page.
    induction H as [d Hd | s d env rq H IH Hr | s d env H IH Hl
                    | s d H IH Hs Hp | s d H IH Hs Hn].
    - cbn. lia.
    - destruct IH as (I1 & I2 & I3). repeat split; try assumption.
      pose proof (serve_count env rq d uid).
      pose proof (@ceil_div_mono (count_for uid d) (count_for uid (serve env rq d)) 10).
      lia.
    - destruct IH as (I1 & I2 & I3). unfold fetchTransactions.
      destruct (fst (fst (run (get_transactions uid (Some (currentPage s)) (Some 10)) env d)))
        as [[items p |] |] eqn:E; cbn [fetched currentPage totalPages];
        try (repeat split; assumption).
      apply history_pagination in E as (_ & _ & _ & ->). cbn. lia.
    - destruct IH as (I1 & I2 & I3).
      unfold pagination_shown, previous_disabled in *.
      apply Z.ltb_lt in Hs. apply orb_false_iff in Hp as [Hp _]. apply Z.eqb_neq in Hp.
      cbn. lia.
    - destruct IH as (I1 & I2 & I3).
      unfold pagination_shown, next_disabled in *.
      apply Z.ltb_lt in Hs. apply orb_false_iff in Hn as [Hn _]. apply Z.eqb_neq in Hn.
      cbn. lia. }
  destruct Hinv as (I1 & I2 & I3).
  assert (E : or_default (Some (currentPage s)) 1 = currentPage s).
  { unfold or_default. destruct (currentPage s =? 0) eqn:E0; [| reflexivity].
    apply Z.eqb_eq in E0. lia. }
  rewrite E. unfold last_page in *. cbn [or_default Z.eqb]. repeat split; lia.
Qed.

Lemma page_in_range_witness :
  1 <= currentPage
         (fetched (fst (fst (run (fetchTransactions "b" first_render)
                               (Sample.env 0.5 "x" 9) Town.paid))) first_render)
    <= last_page "b" Town.paid.
Proof.
  apply (@page_in_range "b"
           (fetched (fst (fst (run (fetchTransactions "b" first_render)
                                 (Sample.env 0.5 "x" 9) Town.paid))) first_render)
           Town.paid).
  apply browse_fetched; [| reflexivity].
  apply browse_open.
  unfold Town.paid, Town.founded.
  repeat (apply reach_serve; [| split; reflexivity]). apply reach_empty.
Defined.

(** ** User names *)

Lemma signup_usernames env body d :
  let d' := after (run (post_signup body) env d) in
  map username (Users d') = map username (Users d)
  \/ (findOne (byUsername (su_username body)) (Users d) = None
      /\ map username (Users d') = map username (Users d) ++ [su_username body]).
Proof.
  unfold after. unfold_reads. cbn zeta.
  destruct (signupBody (isEmail env) body) as [issues | data] eqn:Hv; cbn -[findOne]; [auto |].
  apply signupBody_inr in Hv as ->.
  destruct (faulty env 0); cbn -[findOne]; [auto |].
  destruct (findOne (byUsername (su_username body)) (Users d)) eqn:Ef; cbn -[findOne]; [auto |].
  destruct (faulty env 1); cbn -[findOne]; [auto |].
  right. split; [reflexivity |].
  destruct (faulty env 2); cbn -[findOne]; now rewrite map_app.
Qed.

Lemma put_profile_usernames env uid body d :
  map username (Users (after (run (put_profile uid body) env d)))
  = map username (Users d).
Proof.
  unfold after. unfold_reads.
  destruct (updateBody body); cbn; [| reflexivity].
  destruct (faulty env 0); cbn; [reflexivity |].
  now apply map_updateOne.
Qed.

Lemma serve_usernames env rq d :
  map username (Users (serve env rq d)) = map username (Users d)
  \/ exists body,
       rq = Signup body
       /\ findOne (byUsername (su_username body)) (Users d) = None
       /\ map username (Users (serve env rq d))
          = map username (Users d) ++ [su_username body].
Proof.
  destruct rq as [body | uid body | uid | uid ql | uid qp ql | uid body]; simpl.
  - destruct (signup_usernames env body d) as [H | [H1 H2]]; eauto.
  - destruct (post_transfer_writes env d uid body)
      as [H | (s & r & _ & _ & _ & _ & _ & H)]; unfold transfer in H; rewrite H; auto.
  - rewrite get_balance_reads. auto.
  - rewrite get_statement_reads. auto.
  - rewrite get_transactions_reads. auto.
  - left. apply put_profile_usernames.
Qed.

Lemma findOne_none_username n l :
  findOne (byUsername n) l = None -> ~ In n (map username l).
Proof.
  intros H Hin. apply in_map_iff in Hin as (u & <- & Hu).
  pose proof (find_none _ _ H u Hu) as Hb. unfold byUsername in Hb.
  now rewrite String.eqb_refl in Hb.
Qed.

(** X18. In every store the system can reach, no two users have the
    same [username]: sign-up refuses a name that is taken, nothing else adds
    a user, and no route changes a user's name. *)
Theorem usernames_unique d :
  reachable d -> NoDup (map username (Users d)).
Proof.
  induction 1 as [| env rq d Hd IH Hr]; [constructor |].
  destruct (serve_usernames env rq d) as [-> | (body & _ & Hnone & ->)]; [exact IH |].
  apply NoDup_app; [exact IH | repeat constructor; intros [] |].
  intros n Hn [<- | []]. exact (findOne_none_username _ _ Hnone Hn).
Qed.

Lemma usernames_unique_witness :
  NoDup (map username (Users Town.paid)).
Proof.
  apply usernames_unique.
  unfold Town.paid, Town.founded.
  repeat (apply reach_serve; [| split; reflexivity]). apply reach_empty.
Defined.

(** ** The entries of the history *)

Lemma traverse_history_entries d uid l :
  (forall tx, In tx l -> known d (fromUserId tx) /\ known d (toUserId tx)) ->
  exists items,
    traverse (format_history uid) (map (populate d) l) = Some items
    /\ Forall2 (history_entry d uid) l items.
Proof.
  unfold known. induction l as [| tx l IH]; intros Hk; simpl.
  - exists []. split; [reflexivity | constructor].
  - destruct IH as (items & -> & HF); [intros; apply Hk; now right |].
    destruct (Hk tx (or_introl eq_refl)) as [Hf Ht].
    unfold format_history, populate at 1. simpl.
    destruct (findOne (byId (fromUserId tx)) (Users d)) as [f |] eqn:Ef; [| congruence].
    destruct (findOne (byId (toUserId tx)) (Users d)) as [t |] eqn:Et; [| congruence].
    destruct (findOne_In _ _ Ef) as [_ Hid]. unfold byId in Hid.
    apply String.eqb_eq in Hid. rewrite Hid.
    destruct (String.eqb (fromUserId tx) uid) eqn:E;
      eexists; (split; [reflexivity |]); constructor; try exact HF;
      unfold history_entry; simpl; rewrite E;
      (repeat split; try congruence; [| eauto]).
    + intros _. now apply String.eqb_eq.
    + intros H. apply String.eqb_eq in H. congruence.
Qed.

(** X19. On any store the system can reach and when no driver call
    throws, the history route answers 200 whenever [(page - 1) * limit] is
    not negative, with one entry for each record the query returns, in the
    same order; an entry carries the record's id, amount, date, status and
    description as stored, is of type sent exactly when the user is the
    record's sender, and names the other user of the record. *)
Theorem history_entries env d uid qp ql :
  reachable d ->
  (forall n, faulty env n = false) ->
  0 <= (or_default qp 1 - 1) * or_default ql 10 ->
  let page := or_default qp 1 in
  let limit := or_default ql 10 in
  exists items,
    run (get_transactions uid qp ql) env d
    = (Val (HistoryOk items
              (mkPagination page limit (count_for uid d)
                            (ceil_div (count_for uid d) limit))),
       d, [TransactionFind uid; TransactionCount uid])
    /\ Forall2 (history_entry d uid) (find_sorted uid ((page - 1) * limit) limit d) items
    /\ limit <> 0.
Proof.
  intros Hreach Hok Hskip. cbn zeta.
  set (page := or_default qp 1) in *. set (limit := or_default ql 10) in *.
  destruct (reachable_refs Hreach) as [_ Ht].
  destruct (@traverse_history_entries d uid (find_sorted uid ((page - 1) * limit) limit d))
    as (items & Hitems & HF).
  { intros tx Hin. apply Ht. unfold find_sorted, mongo_limit in Hin.
    assert (Hs : In tx (sort_desc (matching uid d))).
    { destruct (limit =? 0); [| apply In_firstn in Hin]; now apply In_skipn in Hin. }
    apply (Permutation_in _ (Permutation_sym (sort_desc_perm _))) in Hs.
    unfold matching in Hs. now apply filter_In in Hs. }
  exists items. split; [| split; [exact HF |]].
  - unfold count_for. unfold_reads. fold page limit. rewrite !Hok. cbn.
    destruct ((page - 1) * limit <? 0) eqn:E; [apply Z.ltb_lt in E; lia |].
    cbn. rewrite Hok. cbn. rewrite mapM_traverse, Hitems. reflexivity.
  - unfold limit, or_default. destruct ql as [z |]; [| lia].
    destruct (z =? 0) eqn:E; [lia | now apply Z.eqb_neq].
Qed.

Lemma history_entries_witness :
  exists items,
    run (get_transactions "a" None None) (Sample.env 0.5 "x" 9) Town.paid
    = (Val (HistoryOk items
              (mkPagination 1 10 (count_for "a" Town.paid)
                            (ceil_div (count_for "a" Town.paid) 10))),
       Town.paid, [TransactionFind "a"; TransactionCount "a"]).
Proof.
  destruct (@history_entries (Sample.env 0.5 "x" 9) Town.paid "a" None None)
    as (items & H & _).
  - unfold Town.paid, Town.founded.
    repeat (apply reach_serve; [| split; reflexivity]). apply reach_empty.
  - reflexivity.
  - cbn. lia.
  - exists items. exact H.
Defined.

(** ** Rounded balances move the right way *)

Module Ordering.

Import Binary64 Rounding.

#[local] Open Scope Z_scope.












End Ordering.


